(** * hot-coffee: the order service's inventory reservation and closing flow

    A shallow embedding of [internal/service] (the order service:
    [ValidateOrder], [ValidateOrderItems], [AddOrder], [UpdateOrder],
    [DeleteOrder], [CloseOrder], [IsInventorySufficient],
    [ReduceIngredients]) over an in-memory model of the three repositories
    of [internal/dal].

    Quantities of stock are Go [float64] values; they are modelled by the
    kernel's IEEE 754 binary64 floats ([PrimFloat]), each operation rounded
    on its own.  Order line quantities are Go [int] values, modelled in [Z].
    Go maps are [gmap]s keyed by strings. *)

From Stdlib Require Import ZArith Floats.
From stdpp Require Import gmap strings list.

Local Open Scope Z_scope.

(** ** models *)

(** Modelled from the spec: the [models] package is not among the sources;
    the records carry the fields the service reads and writes
    (an order line, an order, a recipe line, a menu item, a stock record). *)
Module OrderItem.
Record t := mk { ProductID : string; Quantity : Z }.
End OrderItem.

Module Order.
Record t := mk {
  ID : string;
  CustomerName : string;
  Status : string;
  CreatedAt : string;
  Items : list OrderItem.t
}.
Definition with_ID (o : t) (id : string) : t :=
  mk id (CustomerName o) (Status o) (CreatedAt o) (Items o).
Definition with_Status (o : t) (st : string) : t :=
  mk (ID o) (CustomerName o) st (CreatedAt o) (Items o).
Definition with_CreatedAt (o : t) (ts : string) : t :=
  mk (ID o) (CustomerName o) (Status o) ts (Items o).
End Order.

Module MenuItemIngredient.
Record t := mk { IngredientID : string; Quantity : float }.
End MenuItemIngredient.

Module MenuItem.
Record t := mk { ID : string; Ingredients : list MenuItemIngredient.t }.
End MenuItem.

Module InventoryItem.
Record t := mk {
  IngredientID : string;
  Name : string;
  Quantity : float;
  Unit : string
}.
Definition with_Quantity (i : t) (q : float) : t :=
  mk (IngredientID i) (Name i) q (Unit i).
End InventoryItem.

(** The sentinel errors of the service, and the not-found and duplicate
    answers of the repositories. *)
Inductive error : Set :=
  | ErrNotValidOrderID
  | ErrNotValidOrderCustomerName
  | ErrNotValidOrderItems
  | ErrNotValidIngredientID
  | ErrDuplicateOrderItems
  | ErrNotValidQuantity
  | ErrNotValidStatusField
  | ErrNotValidCreatedAt
  | ErrNotUniqueOrder
  | ErrOrderProductNotFound
  | ErrInventoryItemNotFound
  | ErrNotEnoughInventoryQuantity
  | ErrOrderNotFound
  | ErrMenuItemNotFound
  | ErrDuplicateID.

Global Instance error_eq_dec : EqDecision error.
Proof. solve_decision. Defined.

Inductive result (A : Type) : Type :=
  | Ok (a : A)
  | Err (e : error).
Arguments Ok {A} a.
Arguments Err {A} e.

(** ** Go primitives *)

(** [float64(n)] for an integer [n]: the nearest binary64 value, ties to
    even. *)
Definition float64 (n : Z) : float :=
  SF2Prim (binary_normalize prec emax n 0 false).

(** [strings.Contains(s, substr)]. *)
Definition strings_Contains (s substr : string) : bool :=
  match String.index 0 substr s with
  | Some _ => true
  | None => false
  end.

(** ** The repositories, in memory *)

Record Store := mkStore {
  orders : list Order.t;
  menu : list MenuItem.t;
  inventory : list InventoryItem.t
}.

(** A call of the service: it reads and writes the stores and returns a
    value or an error.  What was written before an error stays written. *)
Definition M (A : Type) : Type := Store -> result A * Store.

Definition ret {A} (a : A) : M A := fun s => (Ok a, s).
Definition fail {A} (e : error) : M A := fun s => (Err e, s).
Definition bind {A B} (m : M A) (f : A -> M B) : M B :=
  fun s =>
    match m s with
    | (Ok a, s') => f a s'
    | (Err e, s') => (Err e, s')
    end.

Declare Scope svc_scope.
Delimit Scope svc_scope with svc.
Notation "'let*' x := m 'in' k" := (bind m (fun x => k))
  (at level 10, x name, m at level 100, k at level 200) : svc_scope.
Notation "'do*' m 'in' k" := (bind m (fun _ => k))
  (at level 10, m at level 100, k at level 200) : svc_scope.
Local Open Scope svc_scope.

(** A [for ... range] loop whose body may return an error, threading the
    loop's local variables [a]. *)
Fixpoint rangeM {A B} (body : A -> B -> M A) (a : A) (l : list B) : M A :=
  match l with
  | [] => ret a
  | x :: l' => let* a' := body a x in rangeM body a' l'
  end.

(** The same loop when the body touches no repository. *)
Fixpoint range {A B} (body : A -> B -> result A) (a : A) (l : list B)
  : result A :=
  match l with
  | [] => Ok a
  | x :: l' =>
      match body a x with
      | Ok a' => range body a' l'
      | Err e => Err e
      end
  end.

Definition lift {A} (r : result A) : M A := fun s => (r, s).

(** Modelled from the spec: the order store of [internal/dal] is not among
    the sources; [getAllOrders], [getOrder(id)], [createOrder],
    [rewriteOrder(id, Order)] and [deleteOrder(id)] of the spec's external
    interfaces, over the list of stored orders. *)
Module OrderRepository.
Definition has_id (id : string) (o : Order.t) : bool :=
  String.eqb (Order.ID o) id.

Definition OrderExists (order : Order.t) : M bool :=
  fun s => (Ok (existsb (has_id (Order.ID order)) (orders s)), s).

Definition GetAllOrders : M (list Order.t) :=
  fun s => (Ok (orders s), s).

Definition GetOrderById (id : string) : M Order.t :=
  fun s =>
    match find (has_id id) (orders s) with
    | Some o => (Ok o, s)
    | None => (Err ErrOrderNotFound, s)
    end.

Definition AddOrder (order : Order.t) : M Order.t :=
  fun s =>
    if existsb (has_id (Order.ID order)) (orders s)
    then (Err ErrDuplicateID, s)
    else (Ok order, mkStore (orders s ++ [order]) (menu s) (inventory s)).

Definition RewriteOrder (id : string) (order : Order.t) : M unit :=
  fun s =>
    if existsb (has_id id) (orders s)
    then (Ok tt,
          mkStore (map (fun o => if has_id id o then order else o) (orders s))
                  (menu s) (inventory s))
    else (Err ErrOrderNotFound, s).

Definition DeleteOrderById (id : string) : M unit :=
  fun s =>
    if existsb (has_id id) (orders s)
    then (Ok tt,
          mkStore (List.filter (fun o => negb (has_id id o)) (orders s))
                  (menu s) (inventory s))
    else (Err ErrOrderNotFound, s).
End OrderRepository.

(** Modelled from the spec: the menu store of [internal/dal] is not among
    the sources; [getAllRecipes] and [getRecipe(productID)] of the spec's
    external interfaces, over the list of menu items. *)
Module MenuRepository.
Definition GetAllMenuItems : M (list MenuItem.t) :=
  fun s => (Ok (menu s), s).

Definition GetMenuItemById (id : string) : M MenuItem.t :=
  fun s =>
    match find (fun m => String.eqb (MenuItem.ID m) id) (menu s) with
    | Some m => (Ok m, s)
    | None => (Err ErrMenuItemNotFound, s)
    end.
End MenuRepository.

(** Modelled from the spec: the inventory store of [internal/dal] is not
    among the sources; [getAllStock] and the bulk overwrite [saveStock] of
    the spec's external interfaces, over the list of stock records. *)
Module InventoryRepository.
Definition GetAllItems : M (list InventoryItem.t) :=
  fun s => (Ok (inventory s), s).

Definition SaveItems (items : list InventoryItem.t) : M unit :=
  fun s => (Ok tt, mkStore (orders s) (menu s) items).
End InventoryRepository.

(** ** internal/service: the order service *)

(** The inner loop of [ValidateOrderItems]: is there an [item2] at an index
    [l] other than [k] with the product of [item]?  [l] is the index of the
    head of [items]. *)
Fixpoint duplicateAt (item : OrderItem.t) (k l : nat)
    (items : list OrderItem.t) : bool :=
  match items with
  | [] => false
  | item2 :: rest =>
      if String.eqb (OrderItem.ProductID item) (OrderItem.ProductID item2)
         && negb (k =? l)%nat
      then true
      else duplicateAt item k (S l) rest
  end.

(** The outer loop of [ValidateOrderItems], at index [k] with [rest] still to
    visit. *)
Fixpoint validateItemsFrom (items : list OrderItem.t) (k : nat)
    (rest : list OrderItem.t) : result unit :=
  match rest with
  | [] => Ok tt
  | item :: rest' =>
      if String.eqb (OrderItem.ProductID item) ""
         || strings_Contains (OrderItem.ProductID item) " "
      then Err ErrNotValidIngredientID
      else if duplicateAt item k 0 items then Err ErrDuplicateOrderItems
      else if OrderItem.Quantity item <? 1 then Err ErrNotValidQuantity
      else validateItemsFrom items (S k) rest'
  end.

Definition ValidateOrderItems (items : list OrderItem.t) : result unit :=
  if (length items <? 1)%nat then Err ErrNotValidOrderItems
  else validateItemsFrom items 0 items.

Definition ValidateOrder (o : Order.t) : result unit :=
  if strings_Contains (Order.ID o) " " then Err ErrNotValidOrderID
  else if String.eqb (Order.CustomerName o) ""
  then Err ErrNotValidOrderCustomerName
  else
    match ValidateOrderItems (Order.Items o) with
    | Err err => Err err
    | Ok _ =>
        if negb (String.eqb (Order.Status o) "")
           || String.eqb (Order.Status o) "closed"
        then Err ErrNotValidStatusField
        else if negb (String.eqb (Order.CreatedAt o) "")
        then Err ErrNotValidCreatedAt
        else Ok tt
    end.

(** [inventoryMap[item.IngredientID] = item] for every stock record. *)
Definition inventoryMapOf (inventoryItems : list InventoryItem.t)
  : gmap string InventoryItem.t :=
  foldl (fun m item => <[InventoryItem.IngredientID item := item]> m)
        ∅ inventoryItems.

(** [menuMap[item.ID] = item] for every menu item. *)
Definition menuMapOf (menuItems : list MenuItem.t) : gmap string MenuItem.t :=
  foldl (fun m item => <[MenuItem.ID item := item]> m) ∅ menuItems.

(** [ingredient.Quantity * float64(orderItem.Quantity)]. *)
Definition requiredQuantity (ingredient : MenuItemIngredient.t)
    (quantity : Z) : float :=
  (MenuItemIngredient.Quantity ingredient * float64 quantity)%float.

(** The reservation phase of [IsInventorySufficient], innermost loop body:
    an ingredient that is in the map has the reserved quantity subtracted,
    one that is not is passed over. *)
Definition reserveIngredient (quantity : Z)
    (inventoryMap : gmap string InventoryItem.t)
    (ingredient : MenuItemIngredient.t) : gmap string InventoryItem.t :=
  match inventoryMap !! MenuItemIngredient.IngredientID ingredient with
  | Some inventoryItem =>
      let reservedQuantity := requiredQuantity ingredient quantity in
      <[MenuItemIngredient.IngredientID ingredient :=
          InventoryItem.with_Quantity inventoryItem
            (InventoryItem.Quantity inventoryItem - reservedQuantity)%float]>
        inventoryMap
  | None => inventoryMap
  end.

Definition reserveOrderItem (inventoryMap : gmap string InventoryItem.t)
    (existingOrderItem : OrderItem.t) : M (gmap string InventoryItem.t) :=
  let* menuItem :=
    MenuRepository.GetMenuItemById (OrderItem.ProductID existingOrderItem) in
  ret (foldl (reserveIngredient (OrderItem.Quantity existingOrderItem))
             inventoryMap (MenuItem.Ingredients menuItem)).

Definition reserveOrder (inventoryMap : gmap string InventoryItem.t)
    (existingOrder : Order.t) : M (gmap string InventoryItem.t) :=
  rangeM reserveOrderItem inventoryMap (Order.Items existingOrder).

(** The check phase of [IsInventorySufficient], innermost loop body. *)
Definition checkIngredient (quantity : Z)
    (inventoryMap : gmap string InventoryItem.t)
    (ingredient : MenuItemIngredient.t) : result unit :=
  match inventoryMap !! MenuItemIngredient.IngredientID ingredient with
  | None => Err ErrInventoryItemNotFound
  | Some inventoryItem =>
      if (InventoryItem.Quantity inventoryItem
            <? requiredQuantity ingredient quantity)%float
      then Err ErrNotEnoughInventoryQuantity
      else Ok tt
  end.

Definition checkOrderItem (menuMap : gmap string MenuItem.t)
    (inventoryMap : gmap string InventoryItem.t)
    (orderItem : OrderItem.t) : result unit :=
  match menuMap !! OrderItem.ProductID orderItem with
  | None => Err ErrOrderProductNotFound
  | Some menuItem =>
      range (fun _ ingredient =>
               checkIngredient (OrderItem.Quantity orderItem)
                               inventoryMap ingredient)
            tt (MenuItem.Ingredients menuItem)
  end.

Definition checkOrderItems (menuMap : gmap string MenuItem.t)
    (inventoryMap : gmap string InventoryItem.t)
    (orderItems : list OrderItem.t) : result unit :=
  range (fun _ orderItem => checkOrderItem menuMap inventoryMap orderItem)
        tt orderItems.

Definition IsInventorySufficient (orderItems : list OrderItem.t) : M bool :=
  let* inventoryItems := InventoryRepository.GetAllItems in
  let inventoryMap := inventoryMapOf inventoryItems in
  let* existingOrders := OrderRepository.GetAllOrders in
  let* inventoryMap := rangeM reserveOrder inventoryMap existingOrders in
  let* menuItems := MenuRepository.GetAllMenuItems in
  let menuMap := menuMapOf menuItems in
  do* lift (checkOrderItems menuMap inventoryMap orderItems) in
  ret true.

(** [ReduceIngredients], innermost loop body: the check of
    [checkIngredient], then the deduction kept in the map. *)
Definition reduceIngredient (quantity : Z)
    (inventoryMap : gmap string InventoryItem.t)
    (ingredient : MenuItemIngredient.t)
  : result (gmap string InventoryItem.t) :=
  match inventoryMap !! MenuItemIngredient.IngredientID ingredient with
  | None => Err ErrInventoryItemNotFound
  | Some inventoryItem =>
      let requiredQuantity := requiredQuantity ingredient quantity in
      if (InventoryItem.Quantity inventoryItem <? requiredQuantity)%float
      then Err ErrNotEnoughInventoryQuantity
      else Ok (<[MenuItemIngredient.IngredientID ingredient :=
                   InventoryItem.with_Quantity inventoryItem
                     (InventoryItem.Quantity inventoryItem
                        - requiredQuantity)%float]> inventoryMap)
  end.

Definition reduceOrderItem (menuMap : gmap string MenuItem.t)
    (inventoryMap : gmap string InventoryItem.t)
    (orderItem : OrderItem.t) : result (gmap string InventoryItem.t) :=
  match menuMap !! OrderItem.ProductID orderItem with
  | None => Err ErrOrderProductNotFound
  | Some menuItem =>
      range (reduceIngredient (OrderItem.Quantity orderItem))
            inventoryMap (MenuItem.Ingredients menuItem)
  end.

(** The stock records of the map, in the order [map_to_list] walks it (Go
    leaves the order of a map's iteration open). *)
Definition updatedItemsOf (inventoryMap : gmap string InventoryItem.t)
  : list InventoryItem.t :=
  (map_to_list inventoryMap).*2.

Definition ReduceIngredients (orderItems : list OrderItem.t) : M unit :=
  let* inventoryItems := InventoryRepository.GetAllItems in
  let inventoryMap := inventoryMapOf inventoryItems in
  let* menuItems := MenuRepository.GetAllMenuItems in
  let menuMap := menuMapOf menuItems in
  let* inventoryMap :=
    lift (range (reduceOrderItem menuMap) inventoryMap orderItems) in
  InventoryRepository.SaveItems (updatedItemsOf inventoryMap).

(** [AddOrder]; [now] is [time.Now().Format(time.RFC3339)]. *)
Definition AddOrder (now : string) (order : Order.t) : M unit :=
  let* exists_ := OrderRepository.OrderExists order in
  if exists_ : bool then fail ErrNotUniqueOrder
  else
    do* IsInventorySufficient (Order.Items order) in
    do* lift (ValidateOrder order) in
    let order := Order.with_Status order "Open" in
    let order := Order.with_CreatedAt order now in
    do* OrderRepository.AddOrder order in
    ret tt.

Definition UpdateOrder (id : string) (order : Order.t) : M unit :=
  do* lift (ValidateOrder order) in
  let order :=
    if String.eqb (Order.ID order) "" then Order.with_ID order id else order in
  let order := Order.with_Status order "Open" in
  OrderRepository.RewriteOrder id order.

Definition DeleteOrder (id : string) : M unit :=
  OrderRepository.DeleteOrderById id.

Definition CloseOrder (id : string) : M unit :=
  let* order := OrderRepository.GetOrderById id in
  do* ReduceIngredients (Order.Items order) in
  let order := Order.with_Status order "closed" in
  OrderRepository.RewriteOrder id order.

(** ** Properties of calls *)

(** A call that writes nothing. *)
Definition readonly {A} (m : M A) : Prop :=
  forall s, snd (m s) = s.

(** A call that, when it returns an error, has written nothing. *)
Definition atomic_on_error {A} (m : M A) : Prop :=
  forall s e s', m s = (Err e, s') -> s' = s.

(** The quantity on record for an ingredient, as the service's map of the
    stored stock records has it. *)
Definition ledgerQuantity (s : Store) (ingredientID : string) : option float :=
  InventoryItem.Quantity <$> inventoryMapOf (inventory s) !! ingredientID.

(** The stored order with the given id. *)
Definition storedOrder (s : Store) (id : string) : option Order.t :=
  find (OrderRepository.has_id id) (orders s).

(** The inventory map as the check phase of [IsInventorySufficient] sees it:
    the stored stock after the reservation phase has walked the stored
    orders. *)
Definition available (s : Store) : result (gmap string InventoryItem.t) :=
  fst (rangeM reserveOrder (inventoryMapOf (inventory s)) (orders s) s).

(** What the check phase compares a requirement of an ingredient with. *)
Definition availableQuantity (s : Store) (ingredientID : string)
  : option float :=
  match available s with
  | Ok inventoryMap => InventoryItem.Quantity <$> inventoryMap !! ingredientID
  | Err _ => None
  end.

(** ** What the check phase accepts *)

(** The ingredient is in the map and the requirement does not exceed what
    the map holds for it. *)
Definition ingredientFits (inventoryMap : gmap string InventoryItem.t)
    (quantity : Z) (ingredient : MenuItemIngredient.t) : Prop :=
  exists inventoryItem,
    inventoryMap !! MenuItemIngredient.IngredientID ingredient
      = Some inventoryItem
    /\ (InventoryItem.Quantity inventoryItem
          <? requiredQuantity ingredient quantity)%float = false.

(** The line's product is on the menu and every ingredient of it fits. *)
Definition orderItemFits (menuMap : gmap string MenuItem.t)
    (inventoryMap : gmap string InventoryItem.t) (orderItem : OrderItem.t)
  : Prop :=
  exists menuItem,
    menuMap !! OrderItem.ProductID orderItem = Some menuItem
    /\ Forall (ingredientFits inventoryMap (OrderItem.Quantity orderItem))
              (MenuItem.Ingredients menuItem).


(** ** The reservation table, in the spec's words *)

(** What one line item requires of one ingredient: for every
    [(ingredientID, quantityPerUnit)] of its recipe,
    [quantityPerUnit * quantity]. *)
Definition spec_itemRequires (menuItems : list MenuItem.t)
    (ingredientID : string) (item : OrderItem.t) : float :=
  match find (fun m => String.eqb (MenuItem.ID m) (OrderItem.ProductID item))
             menuItems with
  | Some recipe =>
      foldl (fun total ingredient =>
               if String.eqb (MenuItemIngredient.IngredientID ingredient)
                             ingredientID
               then (total + MenuItemIngredient.Quantity ingredient
                             * float64 (OrderItem.Quantity item))%float
               else total)
            0%float (MenuItem.Ingredients recipe)
  | None => 0%float
  end.

Definition isOpen (o : Order.t) : bool := String.eqb (Order.Status o) "Open".

(** The quantity of an ingredient committed to all Open orders. *)
Definition spec_reserved (s : Store) (ingredientID : string) : float :=
  foldl (fun total o =>
           foldl (fun total item =>
                    (total + spec_itemRequires (menu s) ingredientID item)%float)
                 total (Order.Items o))
        0%float (List.filter isOpen (orders s)).

(** ** A small café *)

Module Cafe.
Definition beans (q : float) : InventoryItem.t :=
  InventoryItem.mk "coffee_beans" "Coffee beans" q "g".

(** A latte takes 20g of beans, a mocha 60g of beans; the house special
    takes a syrup that is not in stock. *)
Definition latte : MenuItem.t :=
  MenuItem.mk "latte" [MenuItemIngredient.mk "coffee_beans" 20%float].
Definition mocha : MenuItem.t :=
  MenuItem.mk "mocha" [MenuItemIngredient.mk "coffee_beans" 60%float].
Definition special : MenuItem.t :=
  MenuItem.mk "special" [MenuItemIngredient.mk "syrup" 10%float].
Definition menu : list MenuItem.t := [latte; mocha; special].

Definition line (productID : string) (quantity : Z) : OrderItem.t :=
  OrderItem.mk productID quantity.

(** A request as a client sends it: no status, no creation time. *)
Definition request (id customer : string) (items : list OrderItem.t)
  : Order.t :=
  Order.mk id customer "" "" items.

(** A stored order. *)
Definition stored (id status : string) (items : list OrderItem.t) : Order.t :=
  Order.mk id "Ann" status "2024-11-01T09:00:00Z" items.

Definition now : string := "2024-11-01T10:00:00Z".

(** 100g of beans and no order. *)
Definition empty : Store := mkStore [] menu [beans 100%float].

(** 100g of beans and one Open order of three lattes (60g reserved). *)
Definition three_lattes : Store :=
  mkStore [stored "o1" "Open" [line "latte" 3]] menu [beans 100%float].

(** 100g of beans and one Open order of one latte. *)
Definition one_latte : Store :=
  mkStore [stored "o1" "Open" [line "latte" 1]] menu [beans 100%float].

(** 100g of beans and one Open order of the special, whose syrup is not in
    the ledger. *)
Definition one_special : Store :=
  mkStore [stored "o1" "Open" [line "special" 1]] menu [beans 100%float].
End Cafe.

(** ** A well-formed order, spelled out *)

(** The space character. *)
Definition space : Ascii.ascii := Eval cbv in Ascii.ascii_of_nat 32.

(** The characters of a string. *)
Definition chars (s : string) : list Ascii.ascii :=
  String.list_ascii_of_string s.

(** A line with a product id that is not empty and has no space, and a
    quantity of at least one. *)
Definition validLine (item : OrderItem.t) : Prop :=
  OrderItem.ProductID item <> ""
  /\ ~ In space (chars (OrderItem.ProductID item))
  /\ 1 <= OrderItem.Quantity item.

(** At least one line, every line valid, no product on two lines. *)
Definition validItems (items : list OrderItem.t) : Prop :=
  items <> []
  /\ Forall validLine items
  /\ NoDup (OrderItem.ProductID <$> items).

(** An id without a space (the empty id included), a customer name, valid
    items, and neither status nor creation time. *)
Definition validOrder (o : Order.t) : Prop :=
  ~ In space (chars (Order.ID o))
  /\ Order.CustomerName o <> ""
  /\ validItems (Order.Items o)
  /\ Order.Status o = ""
  /\ Order.CreatedAt o = "".

(** ** The ledger as a map *)

(** Every record of the map sits under its own ingredient id. *)
Definition keyed (inventoryMap : gmap string InventoryItem.t) : Prop :=
  forall k inventoryItem,
    inventoryMap !! k = Some inventoryItem ->
    InventoryItem.IngredientID inventoryItem = k.

(** The deductions an order asks for, in the order [ReduceIngredients] makes
    them: for every line, for every ingredient of its recipe, the line's
    quantity and the ingredient. *)
Definition deductions (menuMap : gmap string MenuItem.t)
    (orderItems : list OrderItem.t) : list (Z * MenuItemIngredient.t) :=
  orderItems ≫= (fun orderItem =>
    match menuMap !! OrderItem.ProductID orderItem with
    | Some menuItem =>
        (fun ingredient => (OrderItem.Quantity orderItem, ingredient))
          <$> MenuItem.Ingredients menuItem
    | None => []
    end).

(** The ingredient ids of the deductions. *)
Definition deductedIDs (menuMap : gmap string MenuItem.t)
    (orderItems : list OrderItem.t) : list string :=
  (fun d => MenuItemIngredient.IngredientID d.2) <$> deductions menuMap orderItems.

(** One deduction: [reduceIngredient] on a pair of [deductions]. *)
Definition reduceStep (inventoryMap : gmap string InventoryItem.t)
    (d : Z * MenuItemIngredient.t) : result (gmap string InventoryItem.t) :=
  reduceIngredient d.1 inventoryMap d.2.

(** Every line's product is on the menu. *)
Definition onMenu (menuMap : gmap string MenuItem.t)
    (orderItems : list OrderItem.t) : Prop :=
  Forall (fun orderItem =>
            is_Some (menuMap !! OrderItem.ProductID orderItem)) orderItems.

(** ** internal/handler: the order handler's CreateOrder *)

Module handler.
(** What the handler has after [r.Body == nil] and
    [json.NewDecoder(r.Body).Decode(&order)]: no body, an empty body
    ([io.EOF]), another decoding error, or an order. *)
Inductive request : Type :=
  | NoBody
  | EmptyBody
  | BadBody (msg : string)
  | Decoded (order : Order.t).

(** The JSON written: an [ErrorResponse] with a text of the handler's own or
    with [err.Error()] of a service error, or the order. *)
Inductive payload : Type :=
  | ErrorText (msg : string)
  | ErrorOf (err : error)
  | OrderBody (order : Order.t).

Record Response := mkResponse { StatusCode : Z; Body : payload }.

Definition StatusCreated : Z := 201.
Definition StatusBadRequest : Z := 400.
Definition StatusConflict : Z := 409.
Definition StatusInternalServerError : Z := 500.

(** [CreateOrder]: the response and the stores after the call.  Logging is
    left out. *)
Definition CreateOrder (now : string) (r : request) (s : Store)
  : Response * Store :=
  match r with
  | NoBody =>
      (mkResponse StatusBadRequest (ErrorText "request body can not be empty"),
       s)
  | EmptyBody =>
      (mkResponse StatusBadRequest (ErrorText "request body can not be empty"),
       s)
  | BadBody msg => (mkResponse StatusBadRequest (ErrorText msg), s)
  | Decoded order =>
      match AddOrder now order s with
      | (Err err, s') =>
          match err with
          | ErrNotUniqueOrder => (mkResponse StatusConflict (ErrorOf err), s')
          | _ => (mkResponse StatusInternalServerError (ErrorOf err), s')
          end
      | (Ok _, s') => (mkResponse StatusCreated (OrderBody order), s')
      end
  end.
End handler.

(*MOREDEFS*)

(** * Proofs *)

(** ** The monad *)

Lemma bind_Ok {A B} (m : M A) (f : A -> M B) s a s' :
  m s = (Ok a, s') -> bind m f s = f a s'.
Proof. intros H. unfold bind. by rewrite H. Qed.

Lemma bind_Err {A B} (m : M A) (f : A -> M B) s e s' :
  m s = (Err e, s') -> bind m f s = (Err e, s').
Proof. intros H. unfold bind. by rewrite H. Qed.

Lemma bind_inv_Ok {A B} (m : M A) (f : A -> M B) s b s2 :
  bind m f s = (Ok b, s2) ->
  exists a s1, m s = (Ok a, s1) /\ f a s1 = (Ok b, s2).
Proof.
  unfold bind. destruct (m s) as [[a|e] s1]; intros H; [eauto | discriminate].
Qed.

Lemma bind_inv_Err {A B} (m : M A) (f : A -> M B) s e s2 :
  bind m f s = (Err e, s2) ->
  m s = (Err e, s2) \/ exists a s1, m s = (Ok a, s1) /\ f a s1 = (Err e, s2).
Proof.
  unfold bind. destruct (m s) as [[a|e'] s1]; intros H; [right; eauto | left].
  by inversion H.
Qed.

Lemma readonly_ret {A} (a : A) : readonly (ret a).
Proof. by intros s. Qed.

Lemma readonly_fail {A} e : readonly (@fail A e).
Proof. by intros s. Qed.

Lemma readonly_lift {A} (r : result A) : readonly (lift r).
Proof. by intros s. Qed.

Lemma readonly_bind {A B} (m : M A) (f : A -> M B) :
  readonly m -> (forall a, readonly (f a)) -> readonly (bind m f).
Proof.
  intros Hm Hf s. unfold bind. specialize (Hm s).
  destruct (m s) as [[a|e] s1]; simpl in Hm; subst s1; [apply Hf | done].
Qed.

Lemma readonly_rangeM {A B} (body : A -> B -> M A) l :
  (forall a x, readonly (body a x)) -> forall a, readonly (rangeM body a l).
Proof.
  intros Hbody. induction l as [|x l IH]; intros a; simpl.
  - apply readonly_ret.
  - apply readonly_bind; [apply Hbody | apply IH].
Qed.

Lemma readonly_atomic {A} (m : M A) : readonly m -> atomic_on_error m.
Proof. intros Hm s e s' H. specialize (Hm s). rewrite H in Hm. by simpl in Hm. Qed.

Lemma readonly_run {A} (m : M A) s : readonly m -> m s = (fst (m s), s).
Proof. intros Hm. specialize (Hm s). destruct (m s); simpl in *; by subst. Qed.

(** ** The repositories *)

Lemma readonly_OrderExists order : readonly (OrderRepository.OrderExists order).
Proof. by intros s. Qed.

Lemma readonly_GetAllOrders : readonly OrderRepository.GetAllOrders.
Proof. by intros s. Qed.

Lemma readonly_GetOrderById id : readonly (OrderRepository.GetOrderById id).
Proof.
  intros s. unfold OrderRepository.GetOrderById. by destruct (find _ _).
Qed.

Lemma readonly_GetAllMenuItems : readonly MenuRepository.GetAllMenuItems.
Proof. by intros s. Qed.

Lemma readonly_GetMenuItemById id : readonly (MenuRepository.GetMenuItemById id).
Proof.
  intros s. unfold MenuRepository.GetMenuItemById. by destruct (find _ _).
Qed.

Lemma readonly_GetAllItems : readonly InventoryRepository.GetAllItems.
Proof. by intros s. Qed.

Lemma atomic_repo_AddOrder order :
  atomic_on_error (OrderRepository.AddOrder order).
Proof.
  intros s e s'. unfold OrderRepository.AddOrder.
  destruct (existsb _ _); intros H; by inversion H.
Qed.

Lemma atomic_RewriteOrder id order :
  atomic_on_error (OrderRepository.RewriteOrder id order).
Proof.
  intros s e s'. unfold OrderRepository.RewriteOrder.
  destruct (existsb _ _); intros H; by inversion H.
Qed.

Lemma find_Some_existsb {A} (p : A -> bool) l x :
  find p l = Some x -> existsb p l = true.
Proof.
  induction l as [|y l IH]; simpl; [done|].
  destruct (p y); [done | apply IH].
Qed.

(** ** The service writes nothing before its last step *)

Lemma readonly_reserveOrderItem inventoryMap existingOrderItem :
  readonly (reserveOrderItem inventoryMap existingOrderItem).
Proof.
  apply readonly_bind; [apply readonly_GetMenuItemById | intros; apply readonly_ret].
Qed.

Lemma readonly_reserveOrder inventoryMap existingOrder :
  readonly (reserveOrder inventoryMap existingOrder).
Proof. apply readonly_rangeM. intros; apply readonly_reserveOrderItem. Qed.

Lemma readonly_IsInventorySufficient orderItems :
  readonly (IsInventorySufficient orderItems).
Proof.
  unfold IsInventorySufficient.
  apply readonly_bind; [apply readonly_GetAllItems | intros inventoryItems].
  apply readonly_bind; [apply readonly_GetAllOrders | intros existingOrders].
  apply readonly_bind;
    [apply readonly_rangeM; intros; apply readonly_reserveOrder | intros m].
  apply readonly_bind; [apply readonly_GetAllMenuItems | intros menuItems].
  apply readonly_bind; [apply readonly_lift | intros; apply readonly_ret].
Qed.

Lemma atomic_bind_readonly {A B} (m : M A) (f : A -> M B) :
  readonly m -> (forall a, atomic_on_error (f a)) -> atomic_on_error (bind m f).
Proof.
  intros Hm Hf s e s' H. pose proof (Hm s) as Hs.
  apply bind_inv_Err in H as [H | (a & s1 & H1 & H2)].
  - rewrite H in Hs. by simpl in Hs.
  - rewrite H1 in Hs. simpl in Hs. subst s1. by eapply Hf.
Qed.

Lemma atomic_AddOrder now order : atomic_on_error (AddOrder now order).
Proof.
  unfold AddOrder.
  apply atomic_bind_readonly; [apply readonly_OrderExists | intros [|]].
  { apply readonly_atomic, readonly_fail. }
  apply atomic_bind_readonly; [apply readonly_IsInventorySufficient | intros _].
  apply atomic_bind_readonly; [apply readonly_lift | intros _].
  intros s e s' H.
  apply bind_inv_Err in H as [H | (a & s1 & _ & H2)].
  - by eapply atomic_repo_AddOrder.
  - discriminate.
Qed.

Lemma atomic_ReduceIngredients orderItems :
  atomic_on_error (ReduceIngredients orderItems).
Proof.
  unfold ReduceIngredients.
  apply atomic_bind_readonly; [apply readonly_GetAllItems | intros inventoryItems].
  apply atomic_bind_readonly; [apply readonly_GetAllMenuItems | intros menuItems].
  apply atomic_bind_readonly; [apply readonly_lift | intros m].
  intros s e s' H. discriminate.
Qed.

(** [ReduceIngredients] leaves the orders and the menu as they are. *)
Lemma ReduceIngredients_orders orderItems s r s' :
  ReduceIngredients orderItems s = (r, s') ->
  orders s' = orders s /\ menu s' = menu s.
Proof.
  unfold ReduceIngredients, bind, InventoryRepository.GetAllItems,
    MenuRepository.GetAllMenuItems, lift, InventoryRepository.SaveItems.
  destruct (range _ _ _); intros H; by inversion H.
Qed.

Lemma atomic_CloseOrder id : atomic_on_error (CloseOrder id).
Proof.
  intros s e s' H. unfold CloseOrder in H.
  apply bind_inv_Err in H as [H | (order & s1 & H1 & H)].
  { by eapply readonly_atomic; [apply readonly_GetOrderById|]. }
  assert (s1 = s) as ->.
  { pose proof (readonly_GetOrderById id s) as Hs. rewrite H1 in Hs. done. }
  apply bind_inv_Err in H as [H | (u & s2 & H2 & H)].
  { by eapply atomic_ReduceIngredients. }
  exfalso.
  apply ReduceIngredients_orders in H2 as [Ho _].
  unfold OrderRepository.GetOrderById in H1.
  destruct (find _ (orders s)) as [o|] eqn:Hf; [|discriminate].
  apply find_Some_existsb in Hf.
  unfold OrderRepository.RewriteOrder in H. rewrite Ho, Hf in H. discriminate.
Qed.

(** C7: rejection is atomic.  When the availability check, the creation of
    an order, the deduction of ingredients or the closing of an order returns
    an error, the stored inventory and the stored orders (the whole store)
    are what they were before the call: no deduction is saved for some
    ingredients only, and an order whose closing failed is stored as it
    was. *)
Theorem rejection_is_atomic (now id : string) (order : Order.t)
    (orderItems : list OrderItem.t) :
  atomic_on_error (IsInventorySufficient orderItems)
  /\ atomic_on_error (AddOrder now order)
  /\ atomic_on_error (ReduceIngredients orderItems)
  /\ atomic_on_error (CloseOrder id).
Proof.
  split; [apply readonly_atomic, readonly_IsInventorySufficient|].
  split; [apply atomic_AddOrder|].
  split; [apply atomic_ReduceIngredients | apply atomic_CloseOrder].
Qed.

(** ** The café, run *)

(** C1: the code admits an order whose line items jointly require more of an
    ingredient than the ledger holds.  With 100g of beans and no stored
    order, a request for three lattes (60g) and one mocha (60g) is admitted:
    each line is compared with the 100g on its own.  Afterwards the Open
    orders require 120g of the 100g in the ledger, and the admitted order
    cannot be closed: [ReduceIngredients] does keep the running deduction
    and finds the mocha 20g short. *)
Theorem joint_requirement_is_admitted :
  let order := Cafe.request "o2" "Bob" [Cafe.line "latte" 3; Cafe.line "mocha" 1] in
  exists s1,
    AddOrder Cafe.now order Cafe.empty = (Ok tt, s1)
    /\ ledgerQuantity Cafe.empty "coffee_beans" = Some 100%float
    /\ spec_reserved s1 "coffee_beans" = 120%float
    /\ (100 <? 120)%float = true
    /\ CloseOrder "o2" s1 = (Err ErrNotEnoughInventoryQuantity, s1).
Proof. eexists. repeat split; vm_compute; reflexivity. Qed.

(** C2: closing a Closed order again is not refused.  With 100g of beans and
    an Open order of one latte (20g), the first close stores the order as
    closed and leaves 80g; the second close of the same id succeeds as well
    and leaves 60g: the ledger is deducted twice. *)
Theorem close_twice_deducts_twice :
  exists s1 s2,
    CloseOrder "o1" Cafe.one_latte = (Ok tt, s1)
    /\ Order.Status <$> storedOrder s1 "o1" = Some "closed"
    /\ CloseOrder "o1" s1 = (Ok tt, s2)
    /\ ledgerQuantity Cafe.one_latte "coffee_beans" = Some 100%float
    /\ ledgerQuantity s1 "coffee_beans" = Some 80%float
    /\ ledgerQuantity s2 "coffee_beans" = Some 60%float.
Proof. do 2 eexists. repeat split; vm_compute; reflexivity. Qed.

(** C3: a Closed order is rewritten by an update.  After the order of one
    latte is closed, an update of its id with a request for two mochas
    succeeds, and the stored order is the new content with status Open
    again. *)
Theorem update_reopens_closed_order :
  let newOrder := Cafe.request "" "Bob" [Cafe.line "mocha" 2] in
  exists s1 s2,
    CloseOrder "o1" Cafe.one_latte = (Ok tt, s1)
    /\ storedOrder s1 "o1"
       = Some (Cafe.stored "o1" "closed" [Cafe.line "latte" 1])
    /\ UpdateOrder "o1" newOrder s1 = (Ok tt, s2)
    /\ storedOrder s2 "o1"
       = Some (Order.mk "o1" "Bob" "Open" "" [Cafe.line "mocha" 2]).
Proof. do 2 eexists. repeat split; vm_compute; reflexivity. Qed.

(** C4: a Closed order is still counted by the reservation phase.  With 100g
    of beans and an Open order of three lattes, closing the order leaves 40g
    in the ledger; a request for two lattes (40g) is then refused, because
    the closed order's 60g are subtracted again; once the closed order is
    deleted the same request is admitted. *)
Theorem closed_order_is_still_reserved :
  let order := Cafe.request "o2" "Bob" [Cafe.line "latte" 2] in
  exists s1 s2 s3,
    CloseOrder "o1" Cafe.three_lattes = (Ok tt, s1)
    /\ Order.Status <$> storedOrder s1 "o1" = Some "closed"
    /\ ledgerQuantity s1 "coffee_beans" = Some 40%float
    /\ spec_reserved s1 "coffee_beans" = 0%float
    /\ availableQuantity s1 "coffee_beans" = Some (-20)%float
    /\ AddOrder Cafe.now order s1 = (Err ErrNotEnoughInventoryQuantity, s1)
    /\ DeleteOrder "o1" s1 = (Ok tt, s2)
    /\ AddOrder Cafe.now order s2 = (Ok tt, s3).
Proof. do 3 eexists. repeat split; vm_compute; reflexivity. Qed.

(** ** Loops over lists *)

Lemma range_unit_Ok {B} (f : B -> result unit) l :
  range (fun _ x => f x) tt l = Ok tt <-> Forall (fun x => f x = Ok tt) l.
Proof.
  induction l as [|x l IH]; simpl.
  - split; [constructor | done].
  - destruct (f x) as [[]|e] eqn:Hx.
    + rewrite IH. split.
      * by constructor.
      * by inversion 1.
    + split; [done | inversion 1; congruence].
Qed.


Lemma range_unit_app {B} (f : B -> result unit) l1 l2 :
  range (fun _ x => f x) tt l1 = Ok tt ->
  range (fun _ x => f x) tt (l1 ++ l2) = range (fun _ x => f x) tt l2.
Proof.
  induction l1 as [|x l1 IH]; simpl; [done|].
  destruct (f x) as [[]|e]; [apply IH | done].
Qed.

(** ** The availability check, unfolded *)

Lemma IsInventorySufficient_run orderItems s :
  IsInventorySufficient orderItems s =
  (match available s with
   | Ok inventoryMap =>
       match checkOrderItems (menuMapOf (menu s)) inventoryMap orderItems with
       | Ok _ => Ok true
       | Err e => Err e
       end
   | Err e => Err e
   end, s).
Proof.
  unfold IsInventorySufficient, available, bind, lift, ret,
    InventoryRepository.GetAllItems, OrderRepository.GetAllOrders,
    MenuRepository.GetAllMenuItems.
  pose proof (readonly_rangeM reserveOrder (orders s) readonly_reserveOrder
                (inventoryMapOf (inventory s)) s) as Hs.
  destruct (rangeM _ _ _ s) as [[m|e] s1]; simpl in Hs; subst s1; simpl;
    [|done].
  by destruct (checkOrderItems _ _ _).
Qed.

(** The reservation phase rewrites entries of the map and adds none. *)
Lemma reserveIngredient_None quantity
    (inventoryMap : gmap string InventoryItem.t) ingredient k :
  reserveIngredient quantity inventoryMap ingredient !! k = None <->
  inventoryMap !! k = None.
Proof.
  unfold reserveIngredient.
  destruct (inventoryMap !! MenuItemIngredient.IngredientID ingredient)
    as [it|] eqn:Hit; [|done].
  destruct (decide (MenuItemIngredient.IngredientID ingredient = k)) as [<-|Hne].
  - rewrite lookup_insert_eq, Hit. split; discriminate.
  - by rewrite lookup_insert_ne.
Qed.

Lemma foldl_reserveIngredient_None quantity ingredients
    (inventoryMap : gmap string InventoryItem.t) k :
  foldl (reserveIngredient quantity) inventoryMap ingredients !! k = None <->
  inventoryMap !! k = None.
Proof.
  revert inventoryMap. induction ingredients as [|i l IH]; intros m; simpl;
    [done|].
  by rewrite IH, reserveIngredient_None.
Qed.

Lemma reserveOrderItem_None (inventoryMap m' : gmap string InventoryItem.t)
    item s s' k :
  reserveOrderItem inventoryMap item s = (Ok m', s') ->
  m' !! k = None <-> inventoryMap !! k = None.
Proof.
  unfold reserveOrderItem, bind, MenuRepository.GetMenuItemById, ret.
  destruct (find _ _); intros [= <- <-]. apply foldl_reserveIngredient_None.
Qed.

Lemma reserveOrder_None (inventoryMap m' : gmap string InventoryItem.t)
    existingOrder s s' k :
  reserveOrder inventoryMap existingOrder s = (Ok m', s') ->
  m' !! k = None <-> inventoryMap !! k = None.
Proof.
  unfold reserveOrder. generalize (Order.Items existingOrder) as items.
  intros items. revert inventoryMap s.
  induction items as [|i l IH]; intros m s; simpl.
  - by intros [= <- <-].
  - intros H. apply bind_inv_Ok in H as (m1 & s1 & H1 & H2).
    rewrite (IH _ _ H2). by eapply reserveOrderItem_None.
Qed.

Lemma available_None s (inventoryMap : gmap string InventoryItem.t) k :
  available s = Ok inventoryMap ->
  inventoryMap !! k = None <-> inventoryMapOf (inventory s) !! k = None.
Proof.
  unfold available.
  generalize (inventoryMapOf (inventory s)) as m0.
  generalize s at 2 as s0. generalize (orders s) as os.
  intros os. induction os as [|o os IH]; intros s0 m0; simpl.
  - by intros [= <-].
  - unfold bind at 1. destruct (reserveOrder m0 o s0) as [[m1|e] s1] eqn:H1;
      [|done].
    intros H. rewrite (IH _ _ H). by eapply reserveOrder_None.
Qed.

(** ** Comparison of binary64 values *)



(** ** The check phase *)

Lemma checkIngredient_Ok quantity (inventoryMap : gmap string InventoryItem.t)
    ingredient :
  checkIngredient quantity inventoryMap ingredient = Ok tt <->
  ingredientFits inventoryMap quantity ingredient.
Proof.
  unfold checkIngredient, ingredientFits.
  destruct (inventoryMap !! _) as [it|]; [|split; [done | by intros (? & ? & _)]].
  destruct (_ <? _)%float eqn:Hlt.
  - split; [done | intros (it' & [= <-] & H); congruence].
  - split; [by exists it | done].
Qed.

Lemma checkOrderItem_Ok (menuMap : gmap string MenuItem.t)
    (inventoryMap : gmap string InventoryItem.t) orderItem :
  checkOrderItem menuMap inventoryMap orderItem = Ok tt <->
  orderItemFits menuMap inventoryMap orderItem.
Proof.
  unfold checkOrderItem, orderItemFits.
  destruct (menuMap !! _) as [menuItem|];
    [|split; [done | by intros (? & ? & _)]].
  rewrite range_unit_Ok. split.
  - intros H. exists menuItem. split; [done|].
    eapply Forall_impl; [exact H|]. intros i. by rewrite checkIngredient_Ok.
  - intros (m' & [= <-] & H).
    eapply Forall_impl; [exact H|]. intros i. by rewrite checkIngredient_Ok.
Qed.

Lemma checkOrderItems_Ok (menuMap : gmap string MenuItem.t)
    (inventoryMap : gmap string InventoryItem.t) orderItems :
  checkOrderItems menuMap inventoryMap orderItems = Ok tt <->
  Forall (orderItemFits menuMap inventoryMap) orderItems.
Proof.
  unfold checkOrderItems. rewrite range_unit_Ok.
  split; intros H; (eapply Forall_impl; [exact H|]); intros i;
    by rewrite checkOrderItem_Ok.
Qed.





Example boundary_is_admitted :
  AddOrder Cafe.now (Cafe.request "o2" "Bob" [Cafe.line "latte" 2])
           Cafe.three_lattes
  = (Ok tt,
     mkStore [Cafe.stored "o1" "Open" [Cafe.line "latte" 3];
              Order.mk "o2" "Bob" "Open" Cafe.now [Cafe.line "latte" 2]]
             Cafe.menu [Cafe.beans 100%float]).
Proof. vm_compute; reflexivity. Qed.

Example beyond_boundary_is_refused :
  AddOrder Cafe.now (Cafe.request "o2" "Bob" [Cafe.line "latte" 3])
           Cafe.three_lattes
  = (Err ErrNotEnoughInventoryQuantity, Cafe.three_lattes).
Proof. vm_compute; reflexivity. Qed.

(** ** Creation: the order of the checks *)

Lemma AddOrder_run now order s :
  AddOrder now order s =
  if existsb (OrderRepository.has_id (Order.ID order)) (orders s)
  then (Err ErrNotUniqueOrder, s)
  else
    match fst (IsInventorySufficient (Order.Items order) s) with
    | Err e => (Err e, s)
    | Ok _ =>
        match ValidateOrder order with
        | Err e => (Err e, s)
        | Ok _ =>
            (Ok tt,
             mkStore (orders s
                        ++ [Order.with_CreatedAt
                              (Order.with_Status order "Open") now])
                     (menu s) (inventory s))
        end
    end.
Proof.
  unfold AddOrder, bind at 1, OrderRepository.OrderExists.
  destruct (existsb _ _) eqn:Hex; [done|].
  unfold bind at 1.
  rewrite (readonly_run _ s (readonly_IsInventorySufficient _)).
  destruct (fst _) as [b|e]; [|done].
  unfold bind at 1, lift. destruct (ValidateOrder order) as [[]|e]; [|done].
  unfold bind, OrderRepository.AddOrder, ret. simpl. by rewrite Hex.
Qed.




(** ** Dangling references of the candidate order *)

Lemma checkOrderItems_not_Ok (menuMap : gmap string MenuItem.t)
    (inventoryMap : gmap string InventoryItem.t) pre orderItem post :
  ~ orderItemFits menuMap inventoryMap orderItem ->
  checkOrderItems menuMap inventoryMap (pre ++ orderItem :: post) <> Ok tt.
Proof.
  intros Hno H. apply checkOrderItems_Ok in H.
  apply Forall_app in H as [_ H]. inversion H; subst. contradiction.
Qed.

Lemma IsInventorySufficient_not_Ok pre orderItem post s :
  (forall inventoryMap,
     available s = Ok inventoryMap ->
     ~ orderItemFits (menuMapOf (menu s)) inventoryMap orderItem) ->
  forall b, fst (IsInventorySufficient (pre ++ orderItem :: post) s) <> Ok b.
Proof.
  intros Hno b. rewrite IsInventorySufficient_run. simpl.
  destruct (available s) as [m|e] eqn:Hav; [|done].
  pose proof (checkOrderItems_not_Ok _ m pre orderItem post (Hno m eq_refl)).
  destruct (checkOrderItems _ _ _) as [[]|e]; [contradiction | done].
Qed.

Lemma checkOrderItems_first (menuMap : gmap string MenuItem.t)
    (inventoryMap : gmap string InventoryItem.t) pre orderItem post e :
  Forall (orderItemFits menuMap inventoryMap) pre ->
  checkOrderItem menuMap inventoryMap orderItem = Err e ->
  checkOrderItems menuMap inventoryMap (pre ++ orderItem :: post) = Err e.
Proof.
  intros Hpre He. apply checkOrderItems_Ok in Hpre.
  unfold checkOrderItems in *. rewrite range_unit_app by done.
  simpl. by rewrite He.
Qed.

(** C8: a dangling reference of the candidate order is a hard failure.  For
    a line of the candidate whose product is not on the menu the check never
    admits the order, and returns ErrOrderProductNotFound when the
    reservation phase and the lines before it pass; for a recipe ingredient
    that is not in the ledger the check never admits the order, whatever the
    line's quantity (a requirement of zero included), and returns
    ErrInventoryItemNotFound when the reservation phase, the lines before
    it and the ingredients before it pass. *)
Theorem dangling_reference_is_hard_failure (s : Store)
    (pre post : list OrderItem.t) (orderItem : OrderItem.t) :
  let orderItems := pre ++ orderItem :: post in
  let menuMap := menuMapOf (menu s) in
  (menuMap !! OrderItem.ProductID orderItem = None ->
   (forall b, fst (IsInventorySufficient orderItems s) <> Ok b)
   /\ (forall inventoryMap,
        available s = Ok inventoryMap ->
        Forall (orderItemFits menuMap inventoryMap) pre ->
        IsInventorySufficient orderItems s = (Err ErrOrderProductNotFound, s)))
  /\ (forall menuItem ipre ingredient ipost,
        menuMap !! OrderItem.ProductID orderItem = Some menuItem ->
        MenuItem.Ingredients menuItem = ipre ++ ingredient :: ipost ->
        ledgerQuantity s (MenuItemIngredient.IngredientID ingredient) = None ->
        (forall b, fst (IsInventorySufficient orderItems s) <> Ok b)
        /\ (forall inventoryMap,
             available s = Ok inventoryMap ->
             Forall (orderItemFits menuMap inventoryMap) pre ->
             Forall (ingredientFits inventoryMap (OrderItem.Quantity orderItem))
                    ipre ->
             IsInventorySufficient orderItems s
             = (Err ErrInventoryItemNotFound, s))).
Proof.
  intros orderItems menuMap. subst orderItems menuMap. split.
  - intros Hmenu. split.
    + apply IsInventorySufficient_not_Ok. intros m _ (mi & Hmi & _).
      congruence.
    + intros m Hav Hpre. rewrite IsInventorySufficient_run, Hav.
      erewrite checkOrderItems_first; [done | done |].
      unfold checkOrderItem. by rewrite Hmenu.
  - intros menuItem ipre ingredient ipost Hmenu Hing Hledger.
    unfold ledgerQuantity in Hledger. apply fmap_None in Hledger.
    split.
    + apply IsInventorySufficient_not_Ok. intros m Hav (mi & Hmi & Hfits).
      rewrite Hmenu in Hmi. injection Hmi as <-.
      rewrite Hing in Hfits. apply Forall_app in Hfits as [_ Hfits].
      inversion Hfits as [|? ? (it & Hit & _) _]; subst.
      apply (available_None s m (MenuItemIngredient.IngredientID ingredient))
        in Hav. apply Hav in Hledger. congruence.
    + intros m Hav Hpre Hipre. rewrite IsInventorySufficient_run, Hav.
      erewrite checkOrderItems_first; [done | done |].
      unfold checkOrderItem. rewrite Hmenu, Hing.
      assert (range (fun _ i => checkIngredient (OrderItem.Quantity orderItem) m i)
                    tt ipre = Ok tt) as Hok.
      { apply range_unit_Ok. eapply Forall_impl; [exact Hipre|].
        intros i. by rewrite checkIngredient_Ok. }
      rewrite (range_unit_app
                 (fun i => checkIngredient (OrderItem.Quantity orderItem) m i))
        by done.
      simpl. unfold checkIngredient.
      apply (available_None s m (MenuItemIngredient.IngredientID ingredient))
        in Hav. apply Hav in Hledger. by rewrite Hledger.
Qed.

(** A line for a product that is not on the menu, and a line of quantity
    zero for the special, whose syrup is not in the ledger. *)
Lemma dangling_reference_is_hard_failure_witness :
  IsInventorySufficient [Cafe.line "tea" 1] Cafe.empty
  = (Err ErrOrderProductNotFound, Cafe.empty)
  /\ IsInventorySufficient [Cafe.line "special" 0] Cafe.empty
     = (Err ErrInventoryItemNotFound, Cafe.empty).
Proof.
  split.
  - eapply (proj1 (dangling_reference_is_hard_failure Cafe.empty [] []
                     (Cafe.line "tea" 1)));
      [vm_compute; reflexivity | vm_compute; reflexivity | constructor].
  - eapply (proj2 (dangling_reference_is_hard_failure Cafe.empty [] []
                     (Cafe.line "special" 0))
              Cafe.special [] (MenuItemIngredient.mk "syrup" 10%float) []);
      [vm_compute; reflexivity | reflexivity | vm_compute; reflexivity
      | vm_compute; reflexivity | constructor | constructor].
Defined.

(** ** Update *)

(** What [UpdateOrder] hands to the repository: the id of the path when the
    body has none, and status Open. *)
Lemma UpdateOrder_run id order s :
  UpdateOrder id order s =
  match ValidateOrder order with
  | Err e => (Err e, s)
  | Ok _ =>
      OrderRepository.RewriteOrder id
        (Order.with_Status
           (if String.eqb (Order.ID order) ""
            then Order.with_ID order id else order) "Open") s
  end.
Proof.
  unfold UpdateOrder, bind, lift. by destruct (ValidateOrder order) as [[]|e].
Qed.

(** C9: update validates the order as create does, with [ValidateOrder], and
    runs no stock check.  An order that fails the validation is refused with
    the validation's error and nothing is written; a valid order for an id
    that is stored is written over the stored order, with status Open,
    whatever the inventory holds, and the inventory and the menu stay as
    they were. *)
Theorem update_skips_stock_check (id : string) (order : Order.t) (s : Store) :
  (forall err, ValidateOrder order = Err err ->
               UpdateOrder id order s = (Err err, s))
  /\ (ValidateOrder order = Ok tt ->
      storedOrder s id <> None ->
      let written :=
        Order.with_Status
          (if String.eqb (Order.ID order) ""
           then Order.with_ID order id else order) "Open" in
      UpdateOrder id order s
      = (Ok tt,
         mkStore (map (fun o => if OrderRepository.has_id id o
                                then written else o) (orders s))
                 (menu s) (inventory s))).
Proof.
  rewrite UpdateOrder_run. split.
  - by intros err ->.
  - intros -> Hstored written. unfold OrderRepository.RewriteOrder.
    unfold storedOrder in Hstored.
    destruct (find _ _) as [o|] eqn:Hf; [|done].
    by rewrite (find_Some_existsb _ _ _ Hf).
Qed.

(** Ten lattes (200g) cannot be admitted against 100g of beans, yet the
    stored order of three lattes is updated to ten. *)
Lemma update_skips_stock_check_witness :
  let order := Cafe.request "" "Ann" [Cafe.line "latte" 10] in
  fst (IsInventorySufficient (Order.Items order) Cafe.three_lattes)
  = Err ErrNotEnoughInventoryQuantity
  /\ UpdateOrder "o1" order Cafe.three_lattes
     = (Ok tt,
        mkStore [Order.mk "o1" "Ann" "Open" "" [Cafe.line "latte" 10]]
                Cafe.menu [Cafe.beans 100%float]).
Proof.
  split; [vm_compute; reflexivity|].
  apply (proj2 (update_skips_stock_check "o1"
                  (Cafe.request "" "Ann" [Cafe.line "latte" 10])
                  Cafe.three_lattes)); [vm_compute; reflexivity|].
  vm_compute. discriminate.
Defined.

(** ** A dangling ingredient, stored or candidate *)

(** C10: an ingredient that is not in the inventory map is passed over by
    the reservation phase (the map stays as it is, no error) and is
    ErrInventoryItemNotFound in the check phase.  So the outcome depends on
    where the dangling reference is: with a stored order of the special,
    whose syrup is not in the ledger, the reservation phase ends with the
    ledger untouched and a latte is admitted, while a candidate order of the
    special is refused, with that stored order and without it. *)
Theorem dangling_ingredient_is_skipped_when_stored :
  (forall quantity (inventoryMap : gmap string InventoryItem.t) ingredient,
     inventoryMap !! MenuItemIngredient.IngredientID ingredient = None ->
     reserveIngredient quantity inventoryMap ingredient = inventoryMap
     /\ checkIngredient quantity inventoryMap ingredient
        = Err ErrInventoryItemNotFound)
  /\ available Cafe.one_special
     = Ok (inventoryMapOf (inventory Cafe.one_special))
  /\ IsInventorySufficient [Cafe.line "latte" 1] Cafe.one_special
     = (Ok true, Cafe.one_special)
  /\ IsInventorySufficient [Cafe.line "special" 1] Cafe.one_special
     = (Err ErrInventoryItemNotFound, Cafe.one_special)
  /\ IsInventorySufficient [Cafe.line "special" 1] Cafe.empty
     = (Err ErrInventoryItemNotFound, Cafe.empty).
Proof.
  split.
  - intros quantity inventoryMap ingredient Hnone.
    unfold reserveIngredient, checkIngredient. by rewrite Hnone.
  - repeat split; vm_compute; reflexivity.
Qed.

Lemma dangling_ingredient_is_skipped_when_stored_witness :
  let syrup := MenuItemIngredient.mk "syrup" 10%float in
  let inventoryMap := inventoryMapOf [Cafe.beans 100%float] in
  reserveIngredient 1 inventoryMap syrup = inventoryMap
  /\ checkIngredient 1 inventoryMap syrup = Err ErrInventoryItemNotFound.
Proof.
  apply (proj1 dangling_ingredient_is_skipped_when_stored 1
           (inventoryMapOf [Cafe.beans 100%float])
           (MenuItemIngredient.mk "syrup" 10%float)).
  vm_compute; reflexivity.
Defined.

(** A close that fails leaves the store as it was: six lattes (120g) stored
    against 100g of beans cannot be closed, and the order stays Open. *)
Lemma rejection_is_atomic_witness :
  let s := mkStore [Cafe.stored "o1" "Open" [Cafe.line "latte" 6]]
                   Cafe.menu [Cafe.beans 100%float] in
  fst (CloseOrder "o1" s) = Err ErrNotEnoughInventoryQuantity
  /\ snd (CloseOrder "o1" s) = s.
Proof.
  split; [vm_compute; reflexivity|].
  apply (proj2 (proj2 (proj2 (rejection_is_atomic Cafe.now "o1"
                                (Cafe.request "o2" "Bob" []) [])))
           _ ErrNotEnoughInventoryQuantity).
  vm_compute; reflexivity.
Defined.


(** ** Validation *)

Lemma prefix_nil s : String.prefix "" s = true.
Proof. by destruct s. Qed.

Lemma strings_Contains_space s :
  strings_Contains s " " = true <-> In space (chars s).
Proof.
  unfold strings_Contains, chars, space.
  induction s as [|c s IH]; cbn -[Ascii.ascii_dec].
  - split; [done | intros []].
  - destruct (Ascii.ascii_dec _ c) as [<-|Hne].
    + rewrite prefix_nil. split; [intros _; by left | done].
    + destruct (String.index 0 " " s) as [n|].
      * split; [intros _; right; by apply IH | done].
      * split; [done | intros [?|Hin]; [congruence | by apply IH in Hin]].
Qed.

Lemma strings_Contains_no_space s :
  strings_Contains s " " = false <-> ~ In space (chars s).
Proof.
  rewrite <- strings_Contains_space. by destruct (strings_Contains s " ").
Qed.

Lemma duplicateAt_true item k l rest :
  duplicateAt item k l rest = true <->
  exists j item2,
    rest !! j = Some item2
    /\ OrderItem.ProductID item = OrderItem.ProductID item2
    /\ k <> (l + j)%nat.
Proof.
  revert l. induction rest as [|x rest IH]; intros l; simpl.
  - split; [done | by intros (j & ? & ? & _)].
  - destruct (String.eqb_spec (OrderItem.ProductID item) (OrderItem.ProductID x))
      as [Heq|Hne]; simpl.
    + destruct (Nat.eqb_spec k l) as [->|Hkl]; simpl.
      * rewrite IH. split.
        -- intros (j & i2 & Hj & Hp & Hk). exists (S j), i2.
           repeat split; [done | done | lia].
        -- intros ([|j] & i2 & Hj & Hp & Hk); [lia|].
           exists j, i2. repeat split; [done | done | lia].
      * split; [intros _ | done]. exists 0%nat, x.
        repeat split; [done | lia].
    + rewrite IH. split.
      * intros (j & i2 & Hj & Hp & Hk). exists (S j), i2.
        repeat split; [done | done | lia].
      * intros ([|j] & i2 & Hj & Hp & Hk).
        -- simpl in Hj. injection Hj as <-. contradiction.
        -- exists j, i2. repeat split; [done | done | lia].
Qed.

Lemma validateItemsFrom_Ok items k rest :
  validateItemsFrom items k rest = Ok tt <->
  Forall validLine rest
  /\ forall j item, rest !! j = Some item ->
                    duplicateAt item (k + j) 0 items = false.
Proof.
  revert k. induction rest as [|x rest IH]; intros k; simpl.
  - split; [|done]. intros _. split; [constructor | by intros []].
  - destruct (String.eqb_spec (OrderItem.ProductID x) "") as [Hempty|Hne];
      simpl.
    { split; [done|]. intros [H _]. inversion H as [|? ? (Hp & _) _]; subst.
      contradiction. }
    destruct (strings_Contains (OrderItem.ProductID x) " ") eqn:Hsp.
    { split; [done|]. intros [H _]. inversion H as [|? ? (_ & Hp & _) _]; subst.
      apply strings_Contains_space in Hsp. contradiction. }
    apply strings_Contains_no_space in Hsp.
    destruct (duplicateAt x k 0 items) eqn:Hdup.
    { split; [done|]. intros [_ H]. specialize (H 0%nat x eq_refl).
      rewrite Nat.add_0_r in H. congruence. }
    destruct (Z.ltb_spec (OrderItem.Quantity x) 1) as [Hq|Hq].
    { split; [done|]. intros [H _]. inversion H as [|? ? (_ & _ & Hp) _]; subst.
      lia. }
    rewrite IH. split.
    + intros [Hall Hnd]. split; [by constructor|].
      intros [|j] item Hj; simpl in Hj.
      * injection Hj as <-. by rewrite Nat.add_0_r.
      * rewrite <- Nat.add_succ_comm. by apply Hnd.
    + intros [Hall Hnd]. split; [by inversion Hall|].
      intros j item Hj. rewrite Nat.add_succ_comm. by apply Hnd.
Qed.

Lemma no_duplicateAt_NoDup items :
  (forall j item, items !! j = Some item ->
                  duplicateAt item j 0 items = false) <->
  NoDup (OrderItem.ProductID <$> items).
Proof.
  rewrite NoDup_alt. split.
  - intros H i j p Hi Hj.
    apply list_lookup_fmap_Some in Hi as (a & -> & Ha).
    apply list_lookup_fmap_Some in Hj as (b & Hp & Hb).
    destruct (decide (i = j)) as [|Hne]; [done|].
    specialize (H i a Ha).
    assert (duplicateAt a i 0 items = true) as Htrue; [|congruence].
    apply duplicateAt_true. exists j, b. repeat split; [done | done | lia].
  - intros H j item Hj.
    destruct (duplicateAt item j 0 items) eqn:Hdup; [|done].
    apply duplicateAt_true in Hdup as (j' & item2 & Hj' & Hp & Hne).
    exfalso. apply Hne. simpl.
    apply (H j j' (OrderItem.ProductID item)).
    + by apply list_lookup_fmap_Some_2.
    + rewrite Hp. by apply list_lookup_fmap_Some_2.
Qed.

Lemma ValidateOrderItems_validItems (items : list OrderItem.t) :
  ValidateOrderItems items = Ok tt <-> validItems items.
Proof.
  unfold ValidateOrderItems, validItems.
  destruct items as [|x items]; simpl length.
  { simpl. split; [done | by intros [? _]]. }
  change (S (length items) <? 1)%nat with false. cbv iota.
  rewrite validateItemsFrom_Ok, <- no_duplicateAt_NoDup. simpl Nat.add.
  split; [intros [? ?] | intros (_ & ? & ?)]; done.
Qed.

(** [ValidateOrderItems] accepts exactly the lists with at least one line,
    whose lines each have a product id that is not empty and has no space
    and a quantity of at least one, and in which no product is on two
    lines. *)
Theorem ValidateOrderItems_Ok_iff (items : list OrderItem.t) :
  ValidateOrderItems items = Ok tt <-> validItems items.
Proof. exact (ValidateOrderItems_validItems items). Qed.

Lemma ValidateOrder_validOrder (o : Order.t) :
  ValidateOrder o = Ok tt <-> validOrder o.
Proof.
  unfold ValidateOrder, validOrder.
  destruct (strings_Contains (Order.ID o) " ") eqn:Hid.
  { apply strings_Contains_space in Hid. split; [done | by intros [? _]]. }
  apply strings_Contains_no_space in Hid.
  destruct (String.eqb_spec (Order.CustomerName o) "") as [Hc|Hc].
  { split; [done | by intros (_ & ? & _)]. }
  destruct (ValidateOrderItems (Order.Items o)) as [[]|e] eqn:Hitems.
  2:{ split; [done|]. intros (_ & _ & Hv & _).
      apply ValidateOrderItems_validItems in Hv. congruence. }
  apply ValidateOrderItems_validItems in Hitems.
  destruct (String.eqb_spec (Order.Status o) "") as [Hs|Hs]; simpl.
  2:{ split; [done | by intros (_ & _ & _ & ? & _)]. }
  rewrite Hs. simpl.
  destruct (String.eqb_spec (Order.CreatedAt o) "") as [Ht|Ht]; simpl.
  - split; [intros _ | done].
    exact (conj Hid (conj Hc (conj Hitems (conj eq_refl Ht)))).
  - split; [done | by intros (_ & _ & _ & _ & ?)].
Qed.

(** [ValidateOrder] accepts exactly the orders whose id has no space, whose
    customer name is not empty, whose items are valid, and which carry
    neither a status nor a creation time; an empty id is accepted. *)
Theorem ValidateOrder_Ok_iff (o : Order.t) :
  ValidateOrder o = Ok tt <-> validOrder o.
Proof. exact (ValidateOrder_validOrder o). Qed.


(** ** The ledger: map, list, and back *)

Lemma inventoryMapOf_snoc l x :
  inventoryMapOf (l ++ [x])
  = <[InventoryItem.IngredientID x := x]> (inventoryMapOf l).
Proof. unfold inventoryMapOf. by rewrite foldl_snoc. Qed.

Lemma keyed_inventoryMapOf l : keyed (inventoryMapOf l).
Proof.
  induction l as [|x l IH] using rev_ind.
  - intros k it H. change (inventoryMapOf []) with (∅ : gmap string InventoryItem.t) in H.
    by rewrite lookup_empty in H.
  - rewrite inventoryMapOf_snoc. intros k it H.
    apply lookup_insert_Some in H as [[<- <-]|[_ H]]; [done | by apply IH].
Qed.

Lemma inventoryMapOf_lookup_NoDup l k it :
  NoDup (InventoryItem.IngredientID <$> l) ->
  inventoryMapOf l !! k = Some it <->
  it ∈ l /\ InventoryItem.IngredientID it = k.
Proof.
  induction l as [|x l IH] using rev_ind; intros Hnd.
  - change (inventoryMapOf []) with (∅ : gmap string InventoryItem.t).
    rewrite lookup_empty.
    split; [done | intros [H _]; by apply elem_of_nil in H].
  - rewrite fmap_app in Hnd. apply NoDup_app in Hnd as (Hl & Hx & _).
    rewrite inventoryMapOf_snoc, lookup_insert_Some, (IH Hl), elem_of_app,
      list_elem_of_singleton.
    split.
    + intros [[<- <-]|(Hne & Hin & Hk)]; [by split; [right|] | by split; [left|]].
    + intros [[Hin| ->] Hk]; [|by left].
      right. split; [|done]. intros Hx'.
      apply (Hx (InventoryItem.IngredientID it)).
      * apply list_elem_of_fmap. by exists it.
      * simpl. rewrite Hk, <- Hx'. apply list_elem_of_singleton. done.
Qed.

Lemma updatedItemsOf_ids (inventoryMap : gmap string InventoryItem.t) :
  keyed inventoryMap ->
  InventoryItem.IngredientID <$> updatedItemsOf inventoryMap
  = (map_to_list inventoryMap).*1.
Proof.
  intros Hk. unfold updatedItemsOf. rewrite <- list_fmap_compose.
  apply list_fmap_ext. intros i [k it] Hi. simpl.
  apply Hk. apply elem_of_map_to_list. by eapply list_elem_of_lookup_2.
Qed.

Lemma updatedItemsOf_elem (inventoryMap : gmap string InventoryItem.t) it :
  keyed inventoryMap ->
  it ∈ updatedItemsOf inventoryMap <->
  inventoryMap !! InventoryItem.IngredientID it = Some it.
Proof.
  intros Hk. unfold updatedItemsOf. rewrite list_elem_of_fmap. split.
  - intros ([k it'] & -> & Hin). simpl.
    apply elem_of_map_to_list in Hin. by rewrite (Hk _ _ Hin).
  - intros H. exists (InventoryItem.IngredientID it, it).
    split; [done | by apply elem_of_map_to_list].
Qed.

(** Saving the map's records and building the map again gives the map. *)
Lemma inventoryMapOf_updatedItemsOf (inventoryMap : gmap string InventoryItem.t) :
  keyed inventoryMap ->
  inventoryMapOf (updatedItemsOf inventoryMap) = inventoryMap.
Proof.
  intros Hk. apply map_eq. intros k. apply option_eq. intros it.
  rewrite inventoryMapOf_lookup_NoDup, updatedItemsOf_elem by
    (try done; rewrite updatedItemsOf_ids by done; apply NoDup_fst_map_to_list).
  split.
  - by intros [H <-].
  - intros H. by rewrite (Hk _ _ H).
Qed.


(** ** The deduction loop, flattened *)

Lemma range_app {A B} (f : A -> B -> result A) a l1 l2 :
  range f a (l1 ++ l2)
  = match range f a l1 with
    | Ok a' => range f a' l2
    | Err e => Err e
    end.
Proof.
  revert a. induction l1 as [|x l1 IH]; intros a; simpl; [done|].
  destruct (f a x); [apply IH | done].
Qed.

Lemma range_fmap {A B C} (f : A -> B -> result A) (g : C -> B) a l :
  range f a (g <$> l) = range (fun a c => f a (g c)) a l.
Proof.
  revert a. induction l as [|x l IH]; intros a; simpl; [done|].
  destruct (f a (g x)); [apply IH | done].
Qed.

Lemma deductions_cons (menuMap : gmap string MenuItem.t) orderItem orderItems :
  deductions menuMap (orderItem :: orderItems)
  = match menuMap !! OrderItem.ProductID orderItem with
    | Some menuItem =>
        (fun ingredient => (OrderItem.Quantity orderItem, ingredient))
          <$> MenuItem.Ingredients menuItem
    | None => []
    end ++ deductions menuMap orderItems.
Proof. done. Qed.

Lemma range_reduce_onMenu (menuMap : gmap string MenuItem.t)
    (m m' : gmap string InventoryItem.t) orderItems :
  range (reduceOrderItem menuMap) m orderItems = Ok m' ->
  onMenu menuMap orderItems.
Proof.
  revert m. induction orderItems as [|x l IH]; intros m; simpl.
  - intros _. constructor.
  - unfold reduceOrderItem at 1.
    destruct (menuMap !! OrderItem.ProductID x) as [mi|] eqn:Hmi; [|done].
    destruct (range _ m _) as [m1|e]; [|done].
    intros H. constructor; [by rewrite Hmi | by eapply IH].
Qed.

Lemma range_reduce_flat (menuMap : gmap string MenuItem.t)
    (m : gmap string InventoryItem.t) orderItems :
  onMenu menuMap orderItems ->
  range (reduceOrderItem menuMap) m orderItems
  = range reduceStep m (deductions menuMap orderItems).
Proof.
  intros Hon. revert m. induction Hon as [|x l [mi Hmi] _ IH]; intros m.
  - done.
  - rewrite deductions_cons, Hmi, range_app, range_fmap. simpl.
    unfold reduceOrderItem at 1. rewrite Hmi.
    change (fun a c => reduceStep a (OrderItem.Quantity x, c))
      with (reduceIngredient (OrderItem.Quantity x)).
    destruct (range _ m _) as [m1|e]; [apply IH | done].
Qed.

Lemma reduceStep_Ok (m m' : gmap string InventoryItem.t) d :
  reduceStep m d = Ok m' <->
  exists it,
    m !! MenuItemIngredient.IngredientID d.2 = Some it
    /\ (InventoryItem.Quantity it <? requiredQuantity d.2 d.1)%float = false
    /\ m' = <[MenuItemIngredient.IngredientID d.2 :=
               InventoryItem.with_Quantity it
                 (InventoryItem.Quantity it - requiredQuantity d.2 d.1)%float]> m.
Proof.
  unfold reduceStep, reduceIngredient.
  destruct (m !! _) as [it|]; [|split; [done | by intros (? & ? & _)]].
  destruct (_ <? _)%float eqn:Hlt.
  - split; [done | intros (it' & [= <-] & ? & _); congruence].
  - split.
    + intros [= <-]. by exists it.
    + intros (it' & [= <-] & _ & ->). done.
Qed.

Lemma range_reduce_frame (m m' : gmap string InventoryItem.t) l k :
  range reduceStep m l = Ok m' ->
  k ∉ (fun d => MenuItemIngredient.IngredientID d.2) <$> l ->
  m' !! k = m !! k.
Proof.
  revert m. induction l as [|d l IH]; intros m; simpl.
  - by intros [= <-].
  - destruct (reduceStep m d) as [m1|e] eqn:Hd; [|done].
    intros H Hk. apply not_elem_of_cons in Hk as [Hne Hk].
    rewrite (IH _ H Hk).
    apply reduceStep_Ok in Hd as (it & _ & _ & ->).
    by rewrite lookup_insert_ne.
Qed.

Lemma range_reduce_keyed (m m' : gmap string InventoryItem.t) l :
  keyed m -> range reduceStep m l = Ok m' -> keyed m'.
Proof.
  revert m. induction l as [|d l IH]; intros m Hk; simpl.
  - by intros [= <-].
  - destruct (reduceStep m d) as [m1|e] eqn:Hd; [|done].
    apply IH. apply reduceStep_Ok in Hd as (it & Hit & _ & ->).
    intros k it' H. apply lookup_insert_Some in H as [[<- <-]|[_ H]].
    + simpl. by apply Hk.
    + by apply Hk.
Qed.

Lemma range_reduce_None (m m' : gmap string InventoryItem.t) l k :
  range reduceStep m l = Ok m' -> m' !! k = None <-> m !! k = None.
Proof.
  revert m. induction l as [|d l IH]; intros m; simpl.
  - by intros [= <-].
  - destruct (reduceStep m d) as [m1|e] eqn:Hd; [|done].
    intros H. rewrite (IH _ H).
    apply reduceStep_Ok in Hd as (it & Hit & _ & ->).
    destruct (decide (MenuItemIngredient.IngredientID d.2 = k)) as [<-|Hne].
    + rewrite lookup_insert_eq, Hit. split; discriminate.
    + by rewrite lookup_insert_ne.
Qed.

Lemma range_reduce_exact (m m' : gmap string InventoryItem.t) l :
  NoDup ((fun d => MenuItemIngredient.IngredientID d.2) <$> l) ->
  range reduceStep m l = Ok m' ->
  forall d, d ∈ l ->
    exists it,
      m !! MenuItemIngredient.IngredientID d.2 = Some it
      /\ (InventoryItem.Quantity it <? requiredQuantity d.2 d.1)%float = false
      /\ m' !! MenuItemIngredient.IngredientID d.2
         = Some (InventoryItem.with_Quantity it
                   (InventoryItem.Quantity it
                      - requiredQuantity d.2 d.1)%float).
Proof.
  revert m. induction l as [|d0 l IH]; intros m Hnd; simpl.
  - intros _ d Hd. by apply elem_of_nil in Hd.
  - rewrite fmap_cons in Hnd. apply NoDup_cons in Hnd as [Hd0 Hnd].
    destruct (reduceStep m d0) as [m1|e] eqn:Hstep; [|done].
    intros H d Hd. pose proof Hstep as Hstep'.
    apply reduceStep_Ok in Hstep' as (it0 & Hit0 & Hlt0 & ->).
    apply elem_of_cons in Hd as [->|Hd].
    + exists it0. repeat split; [done | done |].
      rewrite (range_reduce_frame _ _ _ _ H Hd0). by rewrite lookup_insert_eq.
    + destruct (IH _ Hnd H d Hd) as (it & Hit & Hlt & Hm').
      exists it. repeat split; [|done | done].
      rewrite lookup_insert_ne in Hit; [done|].
      intros Heq. apply Hd0. rewrite Heq.
      apply list_elem_of_fmap. by exists d.
Qed.

Lemma range_reduce_Ok_NoDup (m : gmap string InventoryItem.t) l :
  NoDup ((fun d => MenuItemIngredient.IngredientID d.2) <$> l) ->
  (exists m', range reduceStep m l = Ok m') <->
  Forall (fun d => checkIngredient d.1 m d.2 = Ok tt) l.
Proof.
  revert m. induction l as [|d0 l IH]; intros m Hnd; simpl.
  - split; [constructor | by exists m].
  - rewrite fmap_cons in Hnd. apply NoDup_cons in Hnd as [Hd0 Hnd].
    assert (forall m1 it0,
              m1 = <[MenuItemIngredient.IngredientID d0.2 := it0]> m ->
              Forall (fun d => checkIngredient d.1 m1 d.2 = Ok tt) l
              <-> Forall (fun d => checkIngredient d.1 m d.2 = Ok tt) l)
      as Hsame.
    { intros m1 it0 ->. rewrite !Forall_forall.
      assert (forall d, d ∈ l ->
                checkIngredient d.1
                  (<[MenuItemIngredient.IngredientID d0.2 := it0]> m) d.2
                = checkIngredient d.1 m d.2) as Hd.
      { intros d Hd. unfold checkIngredient.
        rewrite lookup_insert_ne; [done|].
        intros Heq. apply Hd0. rewrite Heq.
        apply list_elem_of_fmap. by exists d. }
      split; intros H d Hin; specialize (H d Hin);
        [by rewrite <- Hd | by rewrite Hd]. }
    destruct (reduceStep m d0) as [m1|e] eqn:Hstep.
    + apply reduceStep_Ok in Hstep as (it0 & Hit0 & Hlt0 & Hm1).
      rewrite (IH m1 Hnd), (Hsame _ _ Hm1). split.
      * intros H. constructor; [|done].
        apply checkIngredient_Ok. by exists it0.
      * by inversion 1.
    + split; [by intros [? ?]|]. inversion 1 as [|? ? Hc _]; subst.
      apply checkIngredient_Ok in Hc as (it & Hit & Hlt).
      assert (exists m', reduceStep m d0 = Ok m') as [m' Hm'];
        [|congruence].
      eexists. apply reduceStep_Ok. by exists it.
Qed.

(** ** ReduceIngredients *)

Lemma ReduceIngredients_run orderItems s :
  ReduceIngredients orderItems s =
  match range (reduceOrderItem (menuMapOf (menu s)))
              (inventoryMapOf (inventory s)) orderItems with
  | Ok m' => (Ok tt, mkStore (orders s) (menu s) (updatedItemsOf m'))
  | Err e => (Err e, s)
  end.
Proof.
  unfold ReduceIngredients, bind, lift, InventoryRepository.GetAllItems,
    MenuRepository.GetAllMenuItems, InventoryRepository.SaveItems.
  by destruct (range _ _ _).
Qed.

Lemma ReduceIngredients_Ok orderItems s s' :
  ReduceIngredients orderItems s = (Ok tt, s') ->
  exists m',
    range reduceStep (inventoryMapOf (inventory s))
          (deductions (menuMapOf (menu s)) orderItems) = Ok m'
    /\ keyed m'
    /\ s' = mkStore (orders s) (menu s) (updatedItemsOf m').
Proof.
  rewrite ReduceIngredients_run.
  destruct (range _ _ _) as [m'|e] eqn:Hr; [|done].
  intros [= <-]. exists m'.
  rewrite range_reduce_flat in Hr by (by eapply range_reduce_onMenu).
  split; [done|]. split; [|done].
  eapply range_reduce_keyed; [apply keyed_inventoryMapOf | done].
Qed.

(** When [ReduceIngredients] succeeds it writes the inventory only: orders
    and menu are as before, the saved inventory has one record for each
    ingredient id, and the ingredient ids on record are the same as before
    (no record is added and none is dropped). *)
Theorem ReduceIngredients_keeps_ingredients (orderItems : list OrderItem.t)
    (s s' : Store) :
  ReduceIngredients orderItems s = (Ok tt, s') ->
  orders s' = orders s
  /\ menu s' = menu s
  /\ NoDup (InventoryItem.IngredientID <$> inventory s')
  /\ forall k, ledgerQuantity s' k = None <-> ledgerQuantity s k = None.
Proof.
  intros H. apply ReduceIngredients_Ok in H as (m' & Hr & Hk & ->). simpl.
  split; [done|]. split; [done|]. split.
  - rewrite updatedItemsOf_ids by done. apply NoDup_fst_map_to_list.
  - intros k. unfold ledgerQuantity. simpl.
    rewrite inventoryMapOf_updatedItemsOf by done.
    rewrite !fmap_None. by eapply range_reduce_None.
Qed.

Lemma ReduceIngredients_keeps_ingredients_witness :
  let s := mkStore [] Cafe.menu
             [Cafe.beans 100%float; Cafe.beans 50%float] in
  exists s',
    ReduceIngredients [Cafe.line "latte" 1] s = (Ok tt, s')
    /\ inventory s' = [Cafe.beans 30%float]
    /\ NoDup (InventoryItem.IngredientID <$> inventory s').
Proof.
  eexists. split; [vm_compute; reflexivity|]. split; [reflexivity|].
  eapply (ReduceIngredients_keeps_ingredients [Cafe.line "latte" 1]
            (mkStore [] Cafe.menu [Cafe.beans 100%float; Cafe.beans 50%float])).
  vm_compute; reflexivity.
Defined.

(** A successful [ReduceIngredients] leaves the record of every ingredient
    that no recipe of the order's lines uses exactly as it was. *)
Theorem ReduceIngredients_frame (orderItems : list OrderItem.t) (s s' : Store)
    (k : string) :
  ReduceIngredients orderItems s = (Ok tt, s') ->
  k ∉ deductedIDs (menuMapOf (menu s)) orderItems ->
  inventoryMapOf (inventory s') !! k = inventoryMapOf (inventory s) !! k.
Proof.
  intros H Hk. apply ReduceIngredients_Ok in H as (m' & Hr & Hkeyed & ->).
  simpl. rewrite inventoryMapOf_updatedItemsOf by done.
  by eapply range_reduce_frame.
Qed.

(** When the order uses no ingredient twice, a successful
    [ReduceIngredients] deducts from each ingredient it uses exactly the
    recipe's quantity times the line's quantity, once, the requirement was
    not greater than what the ledger held, and the rest of the record (name,
    unit) is kept. *)
Theorem ReduceIngredients_exact (orderItems : list OrderItem.t) (s s' : Store)
    (quantity : Z) (ingredient : MenuItemIngredient.t) :
  ReduceIngredients orderItems s = (Ok tt, s') ->
  NoDup (deductedIDs (menuMapOf (menu s)) orderItems) ->
  (quantity, ingredient) ∈ deductions (menuMapOf (menu s)) orderItems ->
  exists inventoryItem,
    inventoryMapOf (inventory s) !! MenuItemIngredient.IngredientID ingredient
    = Some inventoryItem
    /\ (InventoryItem.Quantity inventoryItem
          <? requiredQuantity ingredient quantity)%float = false
    /\ inventoryMapOf (inventory s') !! MenuItemIngredient.IngredientID ingredient
       = Some (InventoryItem.with_Quantity inventoryItem
                 (InventoryItem.Quantity inventoryItem
                    - requiredQuantity ingredient quantity)%float).
Proof.
  intros H Hnd Hin. apply ReduceIngredients_Ok in H as (m' & Hr & Hkeyed & ->).
  simpl. rewrite inventoryMapOf_updatedItemsOf by done.
  apply (range_reduce_exact _ _ _ Hnd Hr (quantity, ingredient) Hin).
Qed.

Lemma ReduceIngredients_frame_witness :
  let milk := InventoryItem.mk "milk" "Milk" 500%float "ml" in
  let s := mkStore [] Cafe.menu [Cafe.beans 100%float; milk] in
  exists s',
    ReduceIngredients [Cafe.line "latte" 2] s = (Ok tt, s')
    /\ inventoryMapOf (inventory s') !! "milk"
       = inventoryMapOf (inventory s) !! "milk".
Proof.
  eexists. split; [vm_compute; reflexivity|].
  apply (ReduceIngredients_frame [Cafe.line "latte" 2]
           (mkStore [] Cafe.menu
              [Cafe.beans 100%float;
               InventoryItem.mk "milk" "Milk" 500%float "ml"])).
  - vm_compute; reflexivity.
  - apply (bool_decide_unpack _). vm_compute. exact I.
Defined.

Lemma ReduceIngredients_exact_witness :
  let s := mkStore [] Cafe.menu [Cafe.beans 100%float] in
  exists s' inventoryItem,
    ReduceIngredients [Cafe.line "latte" 2] s = (Ok tt, s')
    /\ inventoryMapOf (inventory s) !! "coffee_beans" = Some inventoryItem
    /\ (InventoryItem.Quantity inventoryItem
          <? requiredQuantity (MenuItemIngredient.mk "coffee_beans" 20%float) 2)%float
       = false
    /\ inventoryMapOf (inventory s') !! "coffee_beans"
       = Some (InventoryItem.with_Quantity inventoryItem
                 (InventoryItem.Quantity inventoryItem
                    - requiredQuantity
                        (MenuItemIngredient.mk "coffee_beans" 20%float) 2)%float).
Proof.
  eexists.
  assert (ReduceIngredients [Cafe.line "latte" 2]
            (mkStore [] Cafe.menu [Cafe.beans 100%float])
          = (Ok tt, mkStore [] Cafe.menu [Cafe.beans 60%float])) as Hrun
    by (vm_compute; reflexivity).
  destruct (ReduceIngredients_exact [Cafe.line "latte" 2]
              (mkStore [] Cafe.menu [Cafe.beans 100%float]) _ 2
              (MenuItemIngredient.mk "coffee_beans" 20%float) Hrun)
    as (it & H1 & H2 & H3).
  - apply (bool_decide_unpack _). vm_compute. exact I.
  - vm_compute. constructor.
  - exists it. split; [exact Hrun|]. split; [exact H1|]. split; [exact H2|].
    exact H3.
Defined.

(** ** Admission and deduction on the same ledger *)

Lemma checkOrderItems_flat (menuMap : gmap string MenuItem.t)
    (m : gmap string InventoryItem.t) orderItems :
  checkOrderItems menuMap m orderItems = Ok tt <->
  onMenu menuMap orderItems
  /\ Forall (fun d => checkIngredient d.1 m d.2 = Ok tt)
            (deductions menuMap orderItems).
Proof.
  rewrite checkOrderItems_Ok. unfold onMenu.
  induction orderItems as [|x l IH].
  - split; [intros _; split; constructor | constructor].
  - rewrite deductions_cons, !Forall_cons, Forall_app, IH. clear IH.
    unfold orderItemFits.
    destruct (menuMap !! OrderItem.ProductID x) as [mi|].
    + rewrite Forall_fmap. split.
      * intros [(mi' & Hmi & Hfits) [Hon Hrest]]. injection Hmi as <-.
        split; [split; [by eexists | done]|]. split; [|done].
        eapply Forall_impl; [exact Hfits|]. intros i. simpl.
        by rewrite checkIngredient_Ok.
      * intros [[_ Hon] [Hfits Hrest]]. split; [|by split].
        exists mi. split; [done|].
        eapply Forall_impl; [exact Hfits|]. intros i. simpl.
        by rewrite checkIngredient_Ok.
    + split.
      * by intros [(mi' & ? & _) _].
      * intros [[[? ?] _] _]. done.
Qed.

Lemma available_no_orders s :
  orders s = [] -> available s = Ok (inventoryMapOf (inventory s)).
Proof. unfold available. by intros ->. Qed.

(** With no stored order, for an order that uses no ingredient twice, the
    deduction at closing succeeds exactly when the availability check admits
    the order: the two loops make the same comparisons on the same
    quantities. *)
Theorem deduction_agrees_with_admission (orderItems : list OrderItem.t)
    (s : Store) :
  orders s = [] ->
  NoDup (deductedIDs (menuMapOf (menu s)) orderItems) ->
  (exists s', ReduceIngredients orderItems s = (Ok tt, s'))
  <-> IsInventorySufficient orderItems s = (Ok true, s).
Proof.
  intros Hno Hnd.
  rewrite IsInventorySufficient_run, (available_no_orders s Hno).
  rewrite ReduceIngredients_run.
  pose proof (checkOrderItems_flat (menuMapOf (menu s))
                (inventoryMapOf (inventory s)) orderItems) as Hcheck.
  pose proof (range_reduce_Ok_NoDup (inventoryMapOf (inventory s)) _ Hnd)
    as Hred.
  destruct (range (reduceOrderItem _) _ _) as [m'|e] eqn:Hr.
  - pose proof (range_reduce_onMenu _ _ _ _ Hr) as Hon.
    rewrite range_reduce_flat in Hr by done.
    assert (checkOrderItems (menuMapOf (menu s))
              (inventoryMapOf (inventory s)) orderItems = Ok tt) as ->.
    { apply Hcheck. split; [done|]. apply Hred. by exists m'. }
    split; [done | intros _; by eexists].
  - split; [by intros [s' H]|].
    destruct (checkOrderItems _ _ _) as [[]|e'] eqn:Hc; [|done].
    destruct Hcheck as [[Hon Hall] _]; [done|].
    rewrite range_reduce_flat in Hr by done.
    apply Hred in Hall as [m' Hm']. congruence.
Qed.

Lemma deduction_agrees_with_admission_witness :
  (exists s', ReduceIngredients [Cafe.line "latte" 5] Cafe.empty = (Ok tt, s'))
  <-> IsInventorySufficient [Cafe.line "latte" 5] Cafe.empty
      = (Ok true, Cafe.empty).
Proof.
  apply (deduction_agrees_with_admission [Cafe.line "latte" 5] Cafe.empty).
  - reflexivity.
  - apply (bool_decide_unpack _). vm_compute. exact I.
Defined.


(** ** Stored orders: lookups after a write *)

Lemma storedOrder_None_existsb s id :
  storedOrder s id = None <->
  existsb (OrderRepository.has_id id) (orders s) = false.
Proof.
  unfold storedOrder. induction (orders s) as [|o l IH]; simpl; [done|].
  destruct (OrderRepository.has_id id o); [split; discriminate | exact IH].
Qed.

Lemma storedOrder_ID s id o : storedOrder s id = Some o -> Order.ID o = id.
Proof.
  unfold storedOrder. intros H. apply find_some in H as [_ H].
  by apply String.eqb_eq in H.
Qed.

Lemma find_has_id_snoc l o id :
  find (OrderRepository.has_id id) (l ++ [o])
  = match find (OrderRepository.has_id id) l with
    | Some o' => Some o'
    | None => if OrderRepository.has_id id o then Some o else None
    end.
Proof.
  induction l as [|x l IH]; simpl; [done|].
  by destruct (OrderRepository.has_id id x).
Qed.

Lemma find_has_id_rewrite_same l id new o :
  Order.ID new = id ->
  find (OrderRepository.has_id id) l = Some o ->
  find (OrderRepository.has_id id)
       (map (fun o => if OrderRepository.has_id id o then new else o) l)
  = Some new.
Proof.
  intros Hid. induction l as [|x l IH]; simpl; [done|].
  destruct (OrderRepository.has_id id x) eqn:Hx.
  - intros _. unfold OrderRepository.has_id at 1. rewrite Hid.
    by rewrite String.eqb_refl.
  - rewrite Hx. exact IH.
Qed.

Lemma find_has_id_rewrite_other l id id' new :
  id' <> id -> Order.ID new = id ->
  find (OrderRepository.has_id id')
       (map (fun o => if OrderRepository.has_id id o then new else o) l)
  = find (OrderRepository.has_id id') l.
Proof.
  intros Hne Hid. induction l as [|x l IH]; simpl; [done|].
  destruct (OrderRepository.has_id id x) eqn:Hx.
  - assert (OrderRepository.has_id id' new = false) as ->.
    { apply String.eqb_neq. congruence. }
    assert (OrderRepository.has_id id' x = false) as ->; [|done].
    apply String.eqb_eq in Hx. apply String.eqb_neq. congruence.
  - by rewrite IH.
Qed.

Lemma find_has_id_rewrite_renamed l id new :
  Order.ID new <> id ->
  find (OrderRepository.has_id id)
       (map (fun o => if OrderRepository.has_id id o then new else o) l)
  = None.
Proof.
  intros Hne. induction l as [|x l IH]; simpl; [done|].
  destruct (OrderRepository.has_id id x) eqn:Hx.
  - assert (OrderRepository.has_id id new = false) as ->; [|done].
    by apply String.eqb_neq.
  - by rewrite Hx.
Qed.

(** ** AddOrder *)

Lemma AddOrder_Ok_inv (now : string) (order : Order.t) (s s' : Store) :
  AddOrder now order s = (Ok tt, s') <->
  storedOrder s (Order.ID order) = None
  /\ IsInventorySufficient (Order.Items order) s = (Ok true, s)
  /\ validOrder order
  /\ s' = mkStore (orders s ++ [Order.mk (Order.ID order)
                                         (Order.CustomerName order)
                                         "Open" now (Order.Items order)])
                  (menu s) (inventory s).
Proof.
  rewrite AddOrder_run, storedOrder_None_existsb, <- ValidateOrder_validOrder.
  rewrite (IsInventorySufficient_run (Order.Items order) s).
  destruct (existsb _ _).
  { split; [done | by intros [? _]]. }
  simpl. destruct (available s) as [m|e]; simpl.
  2: { split; [done | by intros (_ & ? & _)]. }
  destruct (checkOrderItems _ _ _) as [[]|e]; simpl.
  2: { split; [done | by intros (_ & ? & _)]. }
  destruct (ValidateOrder order) as [[]|e].
  2: { split; [done | by intros (_ & _ & ? & _)]. }
  split.
  - by intros [= <-].
  - by intros (_ & _ & _ & ->).
Qed.

(** [AddOrder] stores an order exactly when its id is not stored yet, the
    availability check admits its items and the order is valid; the store
    afterwards is the one before with the order, stamped Open and with the
    time of the call, after the stored orders.  The menu and the inventory
    are not written: creating an order deducts nothing. *)
Theorem AddOrder_Ok_iff (now : string) (order : Order.t) (s s' : Store) :
  AddOrder now order s = (Ok tt, s') <->
  storedOrder s (Order.ID order) = None
  /\ IsInventorySufficient (Order.Items order) s = (Ok true, s)
  /\ validOrder order
  /\ s' = mkStore (orders s ++ [Order.mk (Order.ID order)
                                         (Order.CustomerName order)
                                         "Open" now (Order.Items order)])
                  (menu s) (inventory s).
Proof. exact (AddOrder_Ok_inv now order s s'). Qed.

(** After [AddOrder] has stored an order, the order is found under its id
    with status Open and the time of the call, every other id finds what it
    found before, and a second [AddOrder] of an order with the same id is
    refused with [ErrNotUniqueOrder] and writes nothing. *)
Theorem AddOrder_then_lookup (now : string) (order : Order.t) (s s' : Store) :
  AddOrder now order s = (Ok tt, s') ->
  storedOrder s' (Order.ID order)
  = Some (Order.mk (Order.ID order) (Order.CustomerName order) "Open" now
                   (Order.Items order))
  /\ (forall id, id <> Order.ID order -> storedOrder s' id = storedOrder s id)
  /\ (forall now2 order2,
        Order.ID order2 = Order.ID order ->
        AddOrder now2 order2 s' = (Err ErrNotUniqueOrder, s')).
Proof.
  intros H. apply AddOrder_Ok_inv in H as (Hnew & _ & _ & ->).
  assert (forall id,
    storedOrder
      (mkStore (orders s ++ [Order.mk (Order.ID order)
                                      (Order.CustomerName order) "Open" now
                                      (Order.Items order)])
               (menu s) (inventory s)) id
    = match storedOrder s id with
      | Some o => Some o
      | None =>
          if String.eqb (Order.ID order) id
          then Some (Order.mk (Order.ID order) (Order.CustomerName order)
                              "Open" now (Order.Items order))
          else None
      end) as Hfind.
  { intros id. unfold storedOrder. simpl. by rewrite find_has_id_snoc. }
  split; [|split].
  - by rewrite Hfind, Hnew, String.eqb_refl.
  - intros id Hne. rewrite Hfind.
    destruct (storedOrder s id); [done|].
    assert (String.eqb (Order.ID order) id = false) as ->; [|done].
    by apply String.eqb_neq.
  - intros now2 order2 Hid. rewrite AddOrder_run.
    destruct (existsb _ _) eqn:Hex; [done|].
    apply storedOrder_None_existsb in Hex.
    by rewrite Hid, Hfind, Hnew, String.eqb_refl in Hex.
Qed.

Lemma AddOrder_then_lookup_witness :
  storedOrder
    (snd (AddOrder Cafe.now (Cafe.request "o2" "Bob" [Cafe.line "latte" 1])
                   Cafe.three_lattes))
    "o2"
  = Some (Order.mk "o2" "Bob" "Open" Cafe.now [Cafe.line "latte" 1])
  /\ fst (AddOrder Cafe.now (Cafe.request "o2" "Eve" [Cafe.line "mocha" 1])
            (snd (AddOrder Cafe.now
                    (Cafe.request "o2" "Bob" [Cafe.line "latte" 1])
                    Cafe.three_lattes)))
     = Err ErrNotUniqueOrder.
Proof.
  assert (AddOrder Cafe.now (Cafe.request "o2" "Bob" [Cafe.line "latte" 1])
            Cafe.three_lattes
          = (Ok tt,
             snd (AddOrder Cafe.now
                    (Cafe.request "o2" "Bob" [Cafe.line "latte" 1])
                    Cafe.three_lattes))) as H.
  { vm_compute. reflexivity. }
  destruct (AddOrder_then_lookup _ _ _ _ H) as (Hfound & _ & Htwice).
  split; [exact Hfound|].
  by rewrite (Htwice Cafe.now (Cafe.request "o2" "Eve" [Cafe.line "mocha" 1])).
Defined.

(** ** CloseOrder *)

(** [CloseOrder] succeeds exactly when the id is stored and the deduction of
    the stored order's items succeeds.  The stored order's status plays no
    part. *)
Theorem CloseOrder_Ok_iff (id : string) (s : Store) :
  (exists s', CloseOrder id s = (Ok tt, s')) <->
  (exists order s1,
     storedOrder s id = Some order
     /\ ReduceIngredients (Order.Items order) s = (Ok tt, s1)).
Proof.
  unfold CloseOrder, bind at 1, OrderRepository.GetOrderById, storedOrder.
  destruct (find _ (orders s)) as [order|] eqn:Hfind.
  2: { split; [by intros [s' H] | by intros (o & s1 & H & _)]. }
  unfold bind.
  destruct (ReduceIngredients (Order.Items order) s) as [[[]|e] s1] eqn:Hred.
  - split; [intros _; by exists order, s1 | intros _].
    pose proof Hred as Hrun. rewrite ReduceIngredients_run in Hrun.
    destruct (range _ _ _) as [m'|e]; [|done].
    injection Hrun as <-.
    unfold OrderRepository.RewriteOrder. simpl.
    rewrite (find_Some_existsb _ _ _ Hfind). by eexists.
  - split; [by intros [s' H] | intros (o & s2 & [= <-] & H)].
    by rewrite Hred in H.
Qed.

(** What a successful [CloseOrder] writes: the stored order gets the status
    closed, every other id finds what it found before, the menu is kept and
    the inventory is the one the deduction of the order's items saved. *)
Theorem CloseOrder_effect (id : string) (s s' : Store) :
  CloseOrder id s = (Ok tt, s') ->
  exists order s1,
    storedOrder s id = Some order
    /\ ReduceIngredients (Order.Items order) s = (Ok tt, s1)
    /\ storedOrder s' id = Some (Order.with_Status order "closed")
    /\ (forall id', id' <> id -> storedOrder s' id' = storedOrder s id')
    /\ menu s' = menu s
    /\ inventory s' = inventory s1.
Proof.
  unfold CloseOrder, bind at 1, OrderRepository.GetOrderById.
  destruct (find _ (orders s)) as [order|] eqn:Hfind; [|done].
  unfold bind.
  destruct (ReduceIngredients (Order.Items order) s) as [[[]|e] s1] eqn:Hred;
    [|done].
  pose proof Hred as Hrun. rewrite ReduceIngredients_run in Hrun.
  destruct (range _ _ _) as [m'|e]; [|done].
  injection Hrun as <-.
  unfold OrderRepository.RewriteOrder. simpl.
  rewrite (find_Some_existsb _ _ _ Hfind). intros [= <-].
  assert (Order.ID (Order.with_Status order "closed") = id) as Hid.
  { exact (storedOrder_ID s id order Hfind). }
  exists order, (mkStore (orders s) (menu s) (updatedItemsOf m')).
  split; [exact Hfind|]. split; [exact Hred|].
  split; [exact (find_has_id_rewrite_same _ _ _ _ Hid Hfind)|].
  split; [|done].
  intros id' Hne. unfold storedOrder. simpl.
  by apply find_has_id_rewrite_other.
Qed.
